(** * gwillem/crawl: a shallow embedding of the crawler package

    The development follows the layout of the Go package:

    - [Regexp], [http] : the parts of Go's regexp and net/http packages
                     that the crawler calls
    - types.go     : the callback types, [Config.t] and [Crawler.t]
    - [UserAgent]  : useragent.go  (getUserAgent, fetchUserAgent,
                     extractChromeVersion, generateSecChUa)
    - [Handlers]   : handlers.go   (default callbacks, redirection policies)
    - [Crawl]      : crawler.go    (New, processURL)
    - [Run]        : crawler.go    (Run, worker and the dispatcher as a
                     transition system over goroutine states)

    Go strings are byte strings and are modelled by [string]; Go [int] is
    modelled by [Z]; a nil-able func or pointer is an [option]; a Go
    [(value, error)] result is [result].  Code with effects runs in the
    monad [M]: it threads the caller's world and a trace of the calls
    made, and it can panic. *)

From Stdlib Require Import ZArith Ascii Lia.
From stdpp Require Import base option list strings pretty gmap.

Open Scope Z_scope.

(** ** Errors and results *)

(** The error values the package distinguishes.  [ErrUseLastResponse] is
    net/http's sentinel; the two context errors are what [ctx.Err()]
    returns; every other error is opaque to the package. *)
Inductive error : Type :=
| ErrUseLastResponse
| ContextCanceled
| DeadlineExceeded
| OtherError (msg : string).

Inductive result (A : Type) : Type :=
| Ok (a : A)
| Err (e : error).
Arguments Ok {A} a.
Arguments Err {A} e.

#[global] Instance error_eq_dec : EqDecision error.
Proof. solve_decision. Defined.

(** ** Byte-string helpers *)

Fixpoint string_drop (n : nat) (s : string) : string :=
  match n, s with
  | O, _ => s
  | S n', String _ s' => string_drop n' s'
  | S _, EmptyString => EmptyString
  end.

Fixpoint string_take (n : nat) (s : string) : string :=
  match n, s with
  | S n', String c s' => String c (string_take n' s')
  | _, _ => EmptyString
  end.

(** The regexp class [\d]: the ASCII digits only. *)
Definition is_digit (c : ascii) : bool :=
  let n := nat_of_ascii c in (48 <=? n)%nat && (n <=? 57)%nat.

Fixpoint all_digits (s : string) : bool :=
  match s with
  | EmptyString => true
  | String c s' => is_digit c && all_digits s'
  end.

(** Length of the longest prefix of [s] made of digits. *)
Fixpoint digit_run (s : string) : nat :=
  match s with
  | String c s' => if is_digit c then S (digit_run s') else O
  | EmptyString => O
  end.

(** The double-quote character, which the Sec-Ch-Ua format string uses. *)
Definition dq : string := String (ascii_of_nat 34) EmptyString.

Module Regexp.

(** The fragment of Go's regexp syntax that [extractChromeVersion] uses:
    a sequence of literal bytes and capturing groups [(\d+)]. *)
Inductive atom : Type :=
| Lit (c : ascii)
| Digits1.

Definition regexp := list atom.

Fixpoint lits (s : string) : regexp :=
  match s with
  | EmptyString => []
  | String c s' => Lit c :: lits s'
  end.

(** Greedy choice: try [f k], [f (k-1)], ..., [f 1], first success wins. *)
Fixpoint greedy {R : Type} (k : nat) (f : nat -> option R) : option R :=
  match k with
  | O => None
  | S k' =>
      match f (S k') with
      | Some r => Some r
      | None => greedy k' f
      end
  end.

(** [match_here p s]: match [p] at the start of [s]; on success the
    captured groups (in order) and the number of bytes consumed. *)
Fixpoint match_here (p : regexp) (s : string) : option (list string * nat) :=
  match p with
  | [] => Some ([], O)
  | Lit c :: p' =>
      match s with
      | String c' s' =>
          if Ascii.eqb c c'
          then match match_here p' s' with
               | Some (caps, n) => Some (caps, S n)
               | None => None
               end
          else None
      | EmptyString => None
      end
  | Digits1 :: p' =>
      greedy (digit_run s)
        (fun k => match match_here p' (string_drop k s) with
                  | Some (caps, n) => Some (string_take k s :: caps, (k + n)%nat)
                  | None => None
                  end)
  end.

(** Leftmost match: try every start offset of [s] in order (the offset
    after the last byte included).  [fuel] is the number of offsets
    left to try. *)
Fixpoint find_from (p : regexp) (s : string) (fuel : nat) : list string :=
  match match_here p s with
  | Some (caps, n) => string_take n s :: caps
  | None =>
      match fuel, s with
      | S fuel', String _ s' => find_from p s' fuel'
      | _, _ => []
      end
  end.

(** The method [FindStringSubmatch]: the leftmost match and its groups,
    or nil. *)
Definition FindStringSubmatch (p : regexp) (s : string) : list string :=
  find_from p s (String.length s).

End Regexp.

(** ** net/http *)

Module http.

Definition StatusOK : Z := 200.

(** *** Header: a map from canonical keys to value lists *)

Abbreviation Header := (gmap string (list string)).

Definition is_upper (c : ascii) : bool :=
  let n := nat_of_ascii c in (65 <=? n)%nat && (n <=? 90)%nat.
Definition is_lower (c : ascii) : bool :=
  let n := nat_of_ascii c in (97 <=? n)%nat && (n <=? 122)%nat.
Definition to_upper (c : ascii) : ascii := ascii_of_nat (nat_of_ascii c - 32).
Definition to_lower (c : ascii) : ascii := ascii_of_nat (nat_of_ascii c + 32).

(** The bytes of an HTTP token (textproto's validHeaderFieldByte). *)
Definition validHeaderFieldByte (c : ascii) : bool :=
  is_upper c || is_lower c || is_digit c ||
  existsb (Ascii.eqb c)
    (String.list_ascii_of_string "!#$%&'*+-.^_`|~").

Fixpoint canonicalize (upper : bool) (s : string) : string :=
  match s with
  | EmptyString => EmptyString
  | String c s' =>
      let c' := if upper && is_lower c then to_upper c
                else if negb upper && is_upper c then to_lower c
                else c in
      String c' (canonicalize (Ascii.eqb c' "-"%char) s')
  end.

(** textproto.CanonicalMIMEHeaderKey: a key made of token bytes gets an
    upper-case first letter and an upper-case letter after each dash,
    lower case elsewhere; any other key is returned unchanged. *)
Definition CanonicalMIMEHeaderKey (s : string) : string :=
  if forallb validHeaderFieldByte (String.list_ascii_of_string s)
  then canonicalize true s
  else s.

(** [h.Get(key)]: the first value of the canonical key, or "". *)
Definition Get (h : Header) (key : string) : string :=
  match h !! CanonicalMIMEHeaderKey key with
  | Some (v :: _) => v
  | _ => ""
  end.

(** [h.Set(key, value)]: replaces the values of the canonical key. *)
Definition Set_ (h : Header) (key value : string) : Header :=
  <[CanonicalMIMEHeaderKey key := [value]]> h.

(** *** Requests, responses, clients *)

Record URL : Type := { Host : string; Raw : string }.

(** A request as [http.NewRequestWithContext] returns it: the header map
    is allocated. *)
Record Request : Type := {
  Method : string;
  Url : URL;
  Hdr : Header;
}.

Definition with_header (h : Header) (req : Request) : Request :=
  {| Method := Method req; Url := Url req; Hdr := h |}.

(** An [io.ReadCloser] over the world [W]. *)
Record ReadCloser (W : Type) : Type := {
  ReadAll : W -> (string * option error) * W;
  Close : W -> option error * W;
}.
Arguments ReadAll {W} _ _.
Arguments Close {W} _ _.

Record Response (W : Type) : Type := {
  StatusCode : Z;
  Status : string;
  Body : option (ReadCloser W);
}.
Arguments StatusCode {W} _.
Arguments Status {W} _.
Arguments Body {W} _.

Module tls.
Record Config : Type := {
  InsecureSkipVerify : bool;
  ServerName : string;
}.
(** [&tls.Config{}] *)
Definition zero : Config := {| InsecureSkipVerify := false; ServerName := "" |}.
End tls.

Record Transport : Type := {
  TLSClientConfig : option tls.Config;
  MaxIdleConns : Z;
}.

(** The dynamic type of a [RoundTripper] interface value. *)
Inductive RoundTripper : Type :=
| RT_nil
| RT_Transport (t : Transport)
| RT_other (name : string).

Definition CheckRedirectFunc := Request -> list Request -> option error.

Record Client : Type := {
  CheckRedirect : option CheckRedirectFunc;
  Transport_ : RoundTripper;
  Timeout : Z;
}.

(** [&http.Client{}], which is also [http.DefaultClient]. *)
Definition zeroClient : Client :=
  {| CheckRedirect := None; Transport_ := RT_nil; Timeout := 0 |}.
Definition DefaultClient : Client := zeroClient.

End http.

(** ** The world outside the package *)

(** A [context.Context] value is identified by a number; whether it is
    cancelled is part of the state of a run. *)
Definition Context := nat.

(** The functions of other packages that the crawler calls: the pure
    ones ([Libs]), and those that act on the caller's world [W] (network,
    standard output). *)
Class Libs : Type := {
  strings_TrimSpace : string -> string;
  publicsuffix_EffectiveTLDPlusOne : string -> result string;
  http_NewRequestWithContext : Context -> string -> string -> result http.Request;
}.

Class World (W : Type) : Type := {
  (** [client.Do(req)]: when the error is nil the response is not. *)
  http_Client_Do : http.Client -> http.Request -> W -> result (http.Response W) * W;
  fmt_Printf : string -> W -> W;
}.

(** ** types.go *)

Definition RequestBuilder (W : Type) := Context -> string -> W -> result http.Request * W.
Definition ResponseHandler (W : Type) := string -> http.Response W -> W -> option error * W.
Definition ErrorHandler (W : Type) := string -> error -> W -> W.
Definition RedirectionPolicy := http.Request -> list http.Request -> option error.

Module Config.
#[local] Abbreviation builder := RequestBuilder.
#[local] Abbreviation handler := ResponseHandler.
#[local] Abbreviation on_error := ErrorHandler.
#[local] Abbreviation policy := RedirectionPolicy.

Record t (W : Type) : Type := {
  WorkerCount : Z;
  RequestBuilder : option (RequestBuilder W);
  ResponseHandler : option (ResponseHandler W);
  ErrorHandler : option (ErrorHandler W);
  UserAgent : string;
  RedirectionPolicy : option RedirectionPolicy;
  Client : option http.Client;
}.
Arguments WorkerCount {W} _.
Arguments RequestBuilder {W} _.
Arguments ResponseHandler {W} _.
Arguments ErrorHandler {W} _.
Arguments UserAgent {W} _.
Arguments RedirectionPolicy {W} _.
Arguments Client {W} _.

(** [Config{}] *)
Definition zero {W : Type} : t W :=
  {| WorkerCount := 0; RequestBuilder := None; ResponseHandler := None;
     ErrorHandler := None; UserAgent := ""; RedirectionPolicy := None;
     Client := None |}.

Section Setters.
Context {W : Type}.
Definition set_WorkerCount (n : Z) (c : t W) : t W :=
  {| WorkerCount := n; RequestBuilder := RequestBuilder c;
     ResponseHandler := ResponseHandler c; ErrorHandler := ErrorHandler c;
     UserAgent := UserAgent c; RedirectionPolicy := RedirectionPolicy c;
     Client := Client c |}.
Definition set_RequestBuilder (f : builder W) (c : t W) : t W :=
  {| WorkerCount := WorkerCount c; RequestBuilder := Some f;
     ResponseHandler := ResponseHandler c; ErrorHandler := ErrorHandler c;
     UserAgent := UserAgent c; RedirectionPolicy := RedirectionPolicy c;
     Client := Client c |}.
Definition set_ResponseHandler (f : handler W) (c : t W) : t W :=
  {| WorkerCount := WorkerCount c; RequestBuilder := RequestBuilder c;
     ResponseHandler := Some f; ErrorHandler := ErrorHandler c;
     UserAgent := UserAgent c; RedirectionPolicy := RedirectionPolicy c;
     Client := Client c |}.
Definition set_ErrorHandler (f : on_error W) (c : t W) : t W :=
  {| WorkerCount := WorkerCount c; RequestBuilder := RequestBuilder c;
     ResponseHandler := ResponseHandler c; ErrorHandler := Some f;
     UserAgent := UserAgent c; RedirectionPolicy := RedirectionPolicy c;
     Client := Client c |}.
Definition set_RedirectionPolicy (f : policy) (c : t W) : t W :=
  {| WorkerCount := WorkerCount c; RequestBuilder := RequestBuilder c;
     ResponseHandler := ResponseHandler c; ErrorHandler := ErrorHandler c;
     UserAgent := UserAgent c; RedirectionPolicy := Some f;
     Client := Client c |}.
End Setters.
End Config.

Module Crawler.
Record t (W : Type) : Type := {
  config : Config.t W;
  userAgent : string;
  secChUa : string;
  client : http.Client;
}.
Arguments config {W} _.
Arguments userAgent {W} _.
Arguments secChUa {W} _.
Arguments client {W} _.
End Crawler.

(** ** Effects: world, trace, panic *)

(** The calls that leave the package, in the order they are made. *)
Inductive Event (W : Type) : Type :=
| EvBuild (url : string)
| EvSend (cl : http.Client) (req : http.Request)
| EvHandle (url : string) (resp : http.Response W)
| EvError (url : string) (err : error)
| EvReadAll
| EvClose.
Arguments EvBuild {W} url.
Arguments EvSend {W} cl req.
Arguments EvHandle {W} url resp.
Arguments EvError {W} url err.
Arguments EvReadAll {W}.
Arguments EvClose {W}.

Record State (W : Type) : Type := {
  world : W;
  trace : list (Event W);
}.
Arguments world {W} _.
Arguments trace {W} _.

Inductive outcome (W A : Type) : Type :=
| Done (a : A) (s : State W)
| Panic (s : State W).
Arguments Done {W A} a s.
Arguments Panic {W A} s.

Definition M (W A : Type) : Type := State W -> outcome W A.

#[global] Instance M_ret {W} : MRet (M W) := fun A a s => Done a s.
#[global] Instance M_bind {W} : MBind (M W) := fun A B k m s =>
  match m s with
  | Done a s' => k a s'
  | Panic s' => Panic s'
  end.

Section Effects.
Context {W : Type}.

(** A nil func or nil pointer dereference. *)
Definition panic {A : Type} : M W A := fun s => Panic s.

(** Run [f] on the world and record [ev]. *)
Definition call {A : Type} (ev : Event W) (f : W -> A * W) : M W A := fun s =>
  let '(a, w) := f (world s) in
  Done a {| world := w; trace := trace s ++ [ev] |}.

Definition call_ (ev : Event W) (f : W -> W) : M W unit :=
  call ev (fun w => (tt, f w)).

(** Calling a func value that may be nil. *)
Definition nilable {F A : Type} (f : option F) (k : F -> M W A) : M W A :=
  match f with
  | Some g => k g
  | None => panic
  end.
End Effects.

(** ** useragent.go *)

Module UserAgent.

(** Default user agent fallback if the API is unavailable. *)
Definition defaultUserAgent : string :=
  "Mozilla/5.0 (Macintosh; Intel Mac OS X 10_15_7) AppleWebKit/537.36 (KHTML, like Gecko) Chrome/144.0.0.0 Safari/537.36".

Definition apiURL : string := "https://api.sansec.io/v1/useragent/latest".

Section Fetch.
Context {L : Libs} {W : Type} {Wd : World W}.

(** fetchUserAgent retrieves the latest user agent from the Sansec API
    and returns the default user agent if the call fails.  The five
    second deadline put on [ctx] shows as an error of [Do] or
    [ReadAll]. *)
Definition fetchUserAgent (ctx : Context) : M W string :=
  match http_NewRequestWithContext ctx "GET" apiURL with
  | Err _ => mret defaultUserAgent
  | Ok req =>
      r ← call (EvSend http.DefaultClient req)
               (http_Client_Do http.DefaultClient req);
      match r with
      | Err _ => mret defaultUserAgent
      | Ok resp =>
          (* defer resp.Body.Close() *)
          nilable (http.Body resp) (fun body =>
            ua ← (if decide (http.StatusCode resp ≠ http.StatusOK)
                  then mret defaultUserAgent
                  else
                    '(data, err) ← call EvReadAll (http.ReadAll body);
                    match err with
                    | Some _ => mret defaultUserAgent
                    | None =>
                        let userAgent := strings_TrimSpace data in
                        if decide (userAgent = "")
                        then mret defaultUserAgent
                        else mret userAgent
                    end);
            _ ← call EvClose (http.Close body);
            mret ua)
      end
  end.

(** getUserAgent returns the user agent of the config if there is one
    and fetches the latest from the API otherwise. *)
Definition getUserAgent (ctx : Context) (config : Config.t W) : M W string :=
  if decide (Config.UserAgent config ≠ "")
  then mret (Config.UserAgent config)
  else fetchUserAgent ctx.
End Fetch.

(** The pattern [Chrome/(\d+)\.] *)
Definition chrome_re : Regexp.regexp :=
  Regexp.lits "Chrome/" ++ [Regexp.Digits1; Regexp.Lit "."%char].

(** extractChromeVersion extracts the Chrome version from a user agent
    string; "144" is the default fallback. *)
Definition extractChromeVersion (userAgent : string) : string :=
  match Regexp.FindStringSubmatch chrome_re userAgent with
  | _ :: v :: _ => v
  | _ => "144"
  end.

(** The format string of [generateSecChUa] applied to its two
    arguments. *)
Definition sprintf_sec_ch_ua (v1 v2 : string) : string :=
  dq +:+ "Chromium" +:+ dq +:+ ";v=" +:+ dq +:+ v1 +:+ dq +:+ ", " +:+
  dq +:+ "Google Chrome" +:+ dq +:+ ";v=" +:+ dq +:+ v2 +:+ dq +:+ ", " +:+
  dq +:+ "Not_A Brand" +:+ dq +:+ ";v=" +:+ dq +:+ "99" +:+ dq.

Definition generateSecChUa (userAgent : string) : string :=
  let version := extractChromeVersion userAgent in
  sprintf_sec_ch_ua version version.

End UserAgent.

(** ** handlers.go *)

Module Handlers.

Definition newline : string := String (ascii_of_nat 10) EmptyString.

Section Defaults.
Context {L : Libs} {W : Type} {Wd : World W}.

(** DefaultRequestBuilder creates a simple GET request for the URL. *)
Definition DefaultRequestBuilder : RequestBuilder W :=
  fun ctx url w => (http_NewRequestWithContext ctx "GET" url, w).

(** DefaultResponseHandler prints the status code of the response. *)
Definition DefaultResponseHandler : ResponseHandler W :=
  fun url resp w =>
    (None,
     fmt_Printf (url +:+ " -> " +:+ pretty (http.StatusCode resp) +:+ " "
                 +:+ http.Status resp +:+ newline) w).

(** NoopErrorHandler ignores all errors. *)
Definition NoopErrorHandler : ErrorHandler W :=
  fun _ _ w => w.
End Defaults.

(** DefaultRedirectionPolicy allows up to n redirections. *)
Definition DefaultRedirectionPolicy (maxRedirects : Z) : RedirectionPolicy :=
  fun _ via =>
    if Z.of_nat (length via) >=? maxRedirects
    then Some ErrUseLastResponse
    else None.

(** SameDomainRedirectionPolicy allows up to 3 redirections, but only
    if they share the same public suffix plus one label. *)
Definition SameDomainRedirectionPolicy {L : Libs} : RedirectionPolicy :=
  fun req via =>
    if Z.of_nat (length via) >=? 3 then Some ErrUseLastResponse
    else
      match via with
      | [] => None
      | first :: _ =>
          match publicsuffix_EffectiveTLDPlusOne (http.Host (http.Url first)) with
          | Err _ => Some ErrUseLastResponse
          | Ok originalDomain =>
              match publicsuffix_EffectiveTLDPlusOne (http.Host (http.Url req)) with
              | Err _ => Some ErrUseLastResponse
              | Ok currentDomain =>
                  if decide (originalDomain ≠ currentDomain)
                  then Some ErrUseLastResponse
                  else None
              end
          end
      end.

End Handlers.

(** ** crawler.go: New and processURL *)

Module Crawl.

Definition defaultMaxRedirects : Z := 3.

(** [transport.TLSClientConfig.InsecureSkipVerify = true], after a nil
    [TLSClientConfig] has been replaced by an empty one.  In Go the
    assignment goes through the pointer, so it is the caller's transport
    that is changed. *)
Definition skip_verify (transport : http.Transport) : http.Transport :=
  let cfg := match http.TLSClientConfig transport with
             | None => http.tls.zero
             | Some cfg => cfg
             end in
  {| http.TLSClientConfig :=
       Some {| http.tls.InsecureSkipVerify := true;
               http.tls.ServerName := http.tls.ServerName cfg |};
     http.MaxIdleConns := http.MaxIdleConns transport |}.

Definition set_CheckRedirect (f : option http.CheckRedirectFunc) (cl : http.Client)
  : http.Client :=
  {| http.CheckRedirect := f; http.Transport_ := http.Transport_ cl;
     http.Timeout := http.Timeout cl |}.

Definition set_Transport (rt : http.RoundTripper) (cl : http.Client) : http.Client :=
  {| http.CheckRedirect := http.CheckRedirect cl; http.Transport_ := rt;
     http.Timeout := http.Timeout cl |}.

Section Crawl.
Context {L : Libs} {W : Type} {Wd : World W}.

(** New creates a new Crawler with the given configuration.  It
    fetches the user agent from the API if the config has none. *)
Definition New (ctx : Context) (config : Config.t W) : M W (Crawler.t W) :=
  let config :=
    if Config.WorkerCount config <=? 0
    then Config.set_WorkerCount 10 config else config in
  let config :=
    match Config.RequestBuilder config with
    | None => Config.set_RequestBuilder Handlers.DefaultRequestBuilder config
    | Some _ => config
    end in
  let config :=
    match Config.ResponseHandler config with
    | None => Config.set_ResponseHandler Handlers.DefaultResponseHandler config
    | Some _ => config
    end in
  let config :=
    match Config.ErrorHandler config with
    | None => Config.set_ErrorHandler Handlers.NoopErrorHandler config
    | Some _ => config
    end in
  let config :=
    match Config.RedirectionPolicy config with
    | None =>
        Config.set_RedirectionPolicy
          (Handlers.DefaultRedirectionPolicy defaultMaxRedirects) config
    | Some _ => config
    end in
  let client :=
    match Config.Client config with
    | None => http.zeroClient
    | Some client => client
    end in
  let clientCopy := client in
  let clientCopy :=
    match http.CheckRedirect clientCopy with
    | None => set_CheckRedirect (Config.RedirectionPolicy config) clientCopy
    | Some _ => clientCopy
    end in
  let clientCopy :=
    match http.Transport_ clientCopy with
    | http.RT_nil =>
        set_Transport
          (http.RT_Transport
             {| http.TLSClientConfig :=
                  Some {| http.tls.InsecureSkipVerify := true;
                          http.tls.ServerName := "" |};
                http.MaxIdleConns := 0 |})
          clientCopy
    | http.RT_Transport transport =>
        set_Transport (http.RT_Transport (skip_verify transport)) clientCopy
    | http.RT_other _ => clientCopy
    end in
  let client := clientCopy in
  userAgent ← UserAgent.getUserAgent ctx config;
  let secChUa := UserAgent.generateSecChUa userAgent in
  mret {| Crawler.config := config; Crawler.userAgent := userAgent;
          Crawler.secChUa := secChUa; Crawler.client := client |}.

(** The closure [setHeaderIfNotExists] of processURL. *)
Definition setHeaderIfNotExists (h : http.Header) (key value : string) : http.Header :=
  if decide (http.Get h key = "") then http.Set_ h key value else h.

(** The standard Chrome headers, in the order processURL sets them. *)
Definition chrome_headers (c : Crawler.t W) : list (string * string) :=
  [ ("Accept", "text/html,application/xhtml+xml,application/xml;q=0.9,image/avif,image/webp,image/apng,*/*;q=0.8,application/signed-exchange;v=b3;q=0.7");
    ("Accept-Language", "en-GB,en-US;q=0.9,en;q=0.8,nl;q=0.7,sv;q=0.6");
    ("Cache-Control", "no-cache");
    ("Pragma", "no-cache");
    ("Priority", "u=0, i");
    ("Referer", "https://www.google.com/");
    ("Sec-Ch-Ua", Crawler.secChUa c);
    ("Sec-Ch-Ua-Mobile", "?0");
    ("Sec-Ch-Ua-Platform", dq +:+ "macOS" +:+ dq);
    ("Sec-Fetch-Dest", "document");
    ("Sec-Fetch-Mode", "navigate");
    ("Sec-Fetch-Site", "same-origin");
    ("Sec-Fetch-User", "?1");
    ("Upgrade-Insecure-Requests", "1") ].

(** The header part of processURL: always override User-Agent, then
    set the Chrome headers the builder did not set. *)
Definition inject_headers (c : Crawler.t W) (h : http.Header) : http.Header :=
  foldl (fun h kv => setHeaderIfNotExists h kv.1 kv.2)
        (http.Set_ h "User-Agent" (Crawler.userAgent c))
        (chrome_headers c).

(** [c.config.ErrorHandler(url, err)] *)
Definition report (c : Crawler.t W) (url : string) (err : error) : M W unit :=
  nilable (Config.ErrorHandler (Crawler.config c))
          (fun handle => call_ (EvError url err) (handle url err)).

(** processURL handles a single URL: builds request, sends it, and
    handles response. *)
Definition processURL (c : Crawler.t W) (ctx : Context) (url : string) : M W unit :=
  r ← nilable (Config.RequestBuilder (Crawler.config c))
              (fun build => call (EvBuild url) (build ctx url));
  match r with
  | Err err => report c url err
  | Ok req =>
      let req := http.with_header (inject_headers c (http.Hdr req)) req in
      r ← call (EvSend (Crawler.client c) req)
               (http_Client_Do (Crawler.client c) req);
      match r with
      | Err err => report c url err
      | Ok resp =>
          herr ← nilable (Config.ResponseHandler (Crawler.config c))
                         (fun handle => call (EvHandle url resp) (handle url resp));
          _ ← match herr with
              | Some err => report c url err
              | None => mret tt
              end;
          (* the deferred func: resp is not nil here *)
          match http.Body resp with
          | Some body =>
              cerr ← call EvClose (http.Close body);
              match cerr with
              | Some err => report c url err
              | None => mret tt
              end
          | None => mret tt
          end
      end
  end.

(** The loop of [worker] when the channel delivers [urls] and is then
    closed, the context not being cancelled meanwhile. *)
Fixpoint worker_on (c : Crawler.t W) (ctx : Context) (urls : list string) : M W unit :=
  match urls with
  | [] => mret tt
  | url :: urls' => _ ← processURL c ctx url; worker_on c ctx urls'
  end.
End Crawl.

End Crawl.

(** ** crawler.go: Run, worker and the dispatcher goroutine

    One call of Run is a transition system.  Its state holds where each
    goroutine stands, the channel, the WaitGroup counter and whether the
    caller's context is cancelled.  A [label] names the goroutine that
    moves and, at a [select], the case the runtime picks among the ready
    ones; [step] is the move, [None] when it is not enabled.  A worker
    runs processURL in one move. *)

Module Run.

(** Go's [int] is 64 bits wide. *)
Definition int_wrap (z : Z) : Z := (z + 2 ^ 63) mod 2 ^ 64 - 2 ^ 63.

Inductive branch : Type := OnDone | OnChan.

Inductive label : Type :=
| LCancel (e : error)         (* the caller cancels, or the deadline passes *)
| LMain                       (* the goroutine that called Run *)
| LDispatch (br : branch)     (* the goroutine that feeds urlChan *)
| LWorker (k : nat) (br : branch).

Inductive mstate : Type :=
| MStart                      (* before make(chan string, ...) *)
| MSpawn (i : Z)              (* at the loop test, i workers started *)
| MWait                       (* at wg.Wait() *)
| MReturned (err : option error)
| MCrashed.                   (* a panic ended the process *)

Inductive dstate : Type :=
| DRange (i : nat)            (* asking urlGen for its i-th URL *)
| DSelect (i : nat) (url : string)
| DReturned.                  (* returned; urlChan is closed *)

Inductive wstate : Type :=
| WSelect
| WProcess (url : string)
| WReturned.                  (* returned; wg.Done() has run *)

#[global] Instance wstate_eq_dec : EqDecision wstate.
Proof. solve_decision. Defined.

Record chan : Type := {
  buf : list string;
  cap : Z;
  closed : bool;
}.

Record state (W : Type) : Type := mk {
  ctx_err : option error;     (* ctx.Err() *)
  main : mstate;
  wg : Z;
  workers : list wstate;
  disp : option dstate;       (* None: not started yet *)
  urlChan : chan;
  st : State W;
  (* ghost: some goroutine has taken a [<-ctx.Done()] case *)
  observed : bool;
  (* ghost: the URLs put into urlChan so far *)
  sent : list string;
}.
Arguments mk {W}.
Arguments ctx_err {W} _.
Arguments main {W} _.
Arguments wg {W} _.
Arguments workers {W} _.
Arguments disp {W} _.
Arguments urlChan {W} _.
Arguments st {W} _.
Arguments observed {W} _.
Arguments sent {W} _.

Section Run.
Context {L : Libs} {W : Type} {Wd : World W}.
Variable c : Crawler.t W.
Variable ctx : Context.
(** The URL generator: its i-th URL, [None] once it has returned. *)
Variable urlGen : nat -> option string.

Definition WorkerCount : Z := Config.WorkerCount (Crawler.config c).

Definition set_ctx_err (e : option error) (s : state W) : state W :=
  mk e (main s) (wg s) (workers s) (disp s) (urlChan s) (st s) (observed s) (sent s).
Definition set_main (m : mstate) (s : state W) : state W :=
  mk (ctx_err s) m (wg s) (workers s) (disp s) (urlChan s) (st s) (observed s) (sent s).
Definition set_wg (n : Z) (s : state W) : state W :=
  mk (ctx_err s) (main s) n (workers s) (disp s) (urlChan s) (st s) (observed s) (sent s).
Definition set_workers (ws : list wstate) (s : state W) : state W :=
  mk (ctx_err s) (main s) (wg s) ws (disp s) (urlChan s) (st s) (observed s) (sent s).
Definition set_disp (d : dstate) (s : state W) : state W :=
  mk (ctx_err s) (main s) (wg s) (workers s) (Some d) (urlChan s) (st s) (observed s) (sent s).
Definition set_urlChan (ch : chan) (s : state W) : state W :=
  mk (ctx_err s) (main s) (wg s) (workers s) (disp s) ch (st s) (observed s) (sent s).
Definition set_st (x : State W) (s : state W) : state W :=
  mk (ctx_err s) (main s) (wg s) (workers s) (disp s) (urlChan s) x (observed s) (sent s).
Definition set_observed (s : state W) : state W :=
  mk (ctx_err s) (main s) (wg s) (workers s) (disp s) (urlChan s) (st s) true (sent s).
Definition set_sent (l : list string) (s : state W) : state W :=
  mk (ctx_err s) (main s) (wg s) (workers s) (disp s) (urlChan s) (st s) (observed s) l.

(** The state in which Run is entered. *)
Definition init (e : option error) (x : State W) : state W :=
  {| ctx_err := e; main := MStart; wg := 0; workers := []; disp := None;
     urlChan := {| buf := []; cap := int_wrap (WorkerCount * 2); closed := false |};
     st := x; observed := false; sent := [] |}.

(** [close(urlChan)] *)
Definition close_chan (s : state W) : state W :=
  set_urlChan {| buf := buf (urlChan s); cap := cap (urlChan s); closed := true |} s.

(** [urlChan <- url], possible while the buffer has room. *)
Definition send (url : string) (s : state W) : option (state W) :=
  if decide (Z.of_nat (length (buf (urlChan s))) < cap (urlChan s))
  then Some (set_sent (sent s ++ [url])
               (set_urlChan {| buf := buf (urlChan s) ++ [url];
                               cap := cap (urlChan s);
                               closed := closed (urlChan s) |} s))
  else None.

Definition main_step (s : state W) : option (state W) :=
  match main s with
  | MStart =>
      (* make panics on a negative size *)
      if cap (urlChan s) <? 0 then Some (set_main MCrashed s)
      else Some (set_main (MSpawn 0) s)
  | MSpawn i =>
      if i <? WorkerCount
      then (* wg.Add(1); go c.worker(ctx, urlChan, &wg) *)
        Some (set_main (MSpawn (i + 1))
                (set_workers (workers s ++ [WSelect]) (set_wg (wg s + 1) s)))
      else (* go func() { ... }() *)
        Some (set_main MWait (set_disp (DRange 0) s))
  | MWait =>
      if wg s =? 0 then Some (set_main (MReturned (ctx_err s)) s) else None
  | MReturned _ | MCrashed => None
  end.

Definition disp_step (br : branch) (s : state W) : option (state W) :=
  match disp s with
  | Some (DRange i) =>
      match urlGen i with
      | Some url => Some (set_disp (DSelect i url) s)
      | None => Some (set_disp DReturned (close_chan s))
      end
  | Some (DSelect i url) =>
      match br with
      | OnDone =>
          match ctx_err s with
          | Some _ => Some (set_observed (set_disp DReturned (close_chan s)))
          | None => None
          end
      | OnChan =>
          match send url s with
          | Some s' => Some (set_disp (DRange (S i)) s')
          | None => None
          end
      end
  | Some DReturned | None => None
  end.

(** The worker returns; its deferred [wg.Done()] runs. *)
Definition worker_return (k : nat) (s : state W) : state W :=
  set_workers (<[k := WReturned]> (workers s)) (set_wg (wg s - 1) s).

Definition worker_step (k : nat) (br : branch) (s : state W) : option (state W) :=
  match workers s !! k with
  | Some WSelect =>
      match br with
      | OnDone =>
          match ctx_err s with
          | Some _ => Some (set_observed (worker_return k s))
          | None => None
          end
      | OnChan =>
          match buf (urlChan s) with
          | url :: rest =>
              Some (set_workers (<[k := WProcess url]> (workers s))
                      (set_urlChan {| buf := rest; cap := cap (urlChan s);
                                      closed := closed (urlChan s) |} s))
          | [] =>
              if closed (urlChan s) then Some (worker_return k s) else None
          end
      end
  | Some (WProcess url) =>
      match Crawl.processURL c ctx url (st s) with
      | Done _ x => Some (set_workers (<[k := WSelect]> (workers s)) (set_st x s))
      | Panic x => Some (set_main MCrashed (set_st x s))
      end
  | Some WReturned | None => None
  end.

Definition step (l : label) (s : state W) : option (state W) :=
  match main s with
  | MCrashed => None
  | _ =>
      match l with
      | LCancel e =>
          match ctx_err s with
          | None => Some (set_ctx_err (Some e) s)
          | Some _ => None
          end
      | LMain => main_step s
      | LDispatch br => disp_step br s
      | LWorker k br => worker_step k br s
      end
  end.

(** Run a schedule from a state. *)
Fixpoint exec (ls : list label) (s : state W) : option (state W) :=
  match ls with
  | [] => Some s
  | l :: ls' =>
      match step l s with
      | Some s' => exec ls' s'
      | None => None
      end
  end.

(** The states of a call of Run entered with context state [e] and
    world [x]. *)
Inductive reachable (e : option error) (x : State W) : state W -> Prop :=
| reach_init : reachable e x (init e x)
| reach_step l s s' :
    reachable e x s -> step l s = Some s' -> reachable e x s'.

(** Run returns [r] in the move from [s] to [s']. *)
Definition returns (s : state W) (r : option error) (s' : state W) : Prop :=
  main s = MWait /\ step LMain s = Some s' /\ main s' = MReturned r.

(** The workers that have not returned. *)
Definition live (ws : list wstate) : nat :=
  length (filter (fun w => w ≠ WReturned) ws).

End Run.

End Run.

(** ** A small world to run the definitions in

    The stand-ins below are used by the examples only; every general
    statement quantifies over [Libs] and [World]. *)

Module Toy.

Definition is_space (c : ascii) : bool :=
  existsb (Nat.eqb (nat_of_ascii c)) [9; 10; 11; 12; 13; 32]%nat.

Fixpoint trim_left (s : string) : string :=
  match s with
  | String c s' => if is_space c then trim_left s' else s
  | EmptyString => EmptyString
  end.

(** ASCII white space only. *)
Definition TrimSpace (s : string) : string :=
  String.rev (trim_left (String.rev (trim_left s))).

(** The labels of a host name, last one first. *)
Fixpoint labels_rev (s : string) (cur : string) (acc : list string) : list string :=
  match s with
  | EmptyString => cur :: acc
  | String c s' =>
      if Ascii.eqb c "."%char then labels_rev s' "" (cur :: acc)
      else labels_rev s' (cur +:+ String c "") acc
  end.

(** A public suffix list with one-label suffixes only. *)
Definition EffectiveTLDPlusOne (host : string) : result string :=
  match labels_rev host "" [] with
  | tld :: name :: _ =>
      if decide (tld = "" \/ name = "")
      then Err (OtherError "publicsuffix: empty label in domain")
      else Ok (name +:+ "." +:+ tld)
  | _ => Err (OtherError "publicsuffix: cannot derive eTLD+1 for domain")
  end.

Fixpoint has_space (s : string) : bool :=
  match s with
  | String c s' => is_space c || has_space s'
  | EmptyString => false
  end.

Fixpoint until_slash (s : string) : string :=
  match s with
  | String c s' => if Ascii.eqb c "/"%char then "" else String c (until_slash s')
  | EmptyString => EmptyString
  end.

Definition host_of (url : string) : string :=
  if String.prefix "https://" url then until_slash (string_drop 8 url)
  else if String.prefix "http://" url then until_slash (string_drop 7 url)
  else "".

(** Requests for URLs without white space. *)
Definition NewRequestWithContext (_ : Context) (method url : string)
  : result http.Request :=
  if has_space url then Err (OtherError "invalid character in host name")
  else Ok {| http.Method := method;
             http.Url := {| http.Host := host_of url; http.Raw := url |};
             http.Hdr := ∅ |}.

#[export] Instance libs : Libs :=
  {| strings_TrimSpace := TrimSpace;
     publicsuffix_EffectiveTLDPlusOne := EffectiveTLDPlusOne;
     http_NewRequestWithContext := NewRequestWithContext |}.

(** The world is the text written to standard output. *)
Definition W : Type := list string.

Definition body (data : string) (close_err : option error) : http.ReadCloser W :=
  {| http.ReadAll := fun w => ((data, None), w);
     http.Close := fun w => (close_err, w) |}.

Definition ok_response (data : string) : http.Response W :=
  {| http.StatusCode := 200; http.Status := "200 OK";
     http.Body := Some (body data None) |}.

(** A network in which [serve] answers every request. *)
Definition network (serve : http.Request -> result (http.Response W)) : World W :=
  {| http_Client_Do := fun _ req w => (serve req, w);
     fmt_Printf := fun line w => w ++ [line] |}.

(** Every host answers 200 with the given body. *)
Definition up (data : string) : World W := network (fun _ => Ok (ok_response data)).

(** No host can be reached. *)
Definition down : World W :=
  network (fun _ => Err (OtherError "dial tcp: no such host")).

Definition start : State W := {| world := []; trace := [] |}.

(** The config of the package's test of a provided user agent. *)
Definition custom : Config.t W :=
  {| Config.WorkerCount := 5; Config.RequestBuilder := None;
     Config.ResponseHandler := None; Config.ErrorHandler := None;
     Config.UserAgent := "Custom User Agent";
     Config.RedirectionPolicy := None; Config.Client := None |}.

(** A config whose client has a redirect function and a transport of
    its own. *)
Definition own_client : Config.t W :=
  {| Config.WorkerCount := 2; Config.RequestBuilder := None;
     Config.ResponseHandler := None; Config.ErrorHandler := None;
     Config.UserAgent := "Custom User Agent";
     Config.RedirectionPolicy := None;
     Config.Client :=
       Some {| http.CheckRedirect := Some (Handlers.DefaultRedirectionPolicy 10);
               http.Transport_ := http.RT_other "recorder";
               http.Timeout := 30 |} |}.

(** An error handler that writes the URL to standard output. *)
Definition log_errors : ErrorHandler W :=
  fun url _ w => w ++ ["ERROR: " +:+ url].

(** A request builder that sets two headers of its own. *)
Definition json_request (url : string) : http.Request :=
  {| http.Method := "POST";
     http.Url := {| http.Host := host_of url; http.Raw := url |};
     http.Hdr := <["Accept" := ["application/json"]]>
                   (<["User-Agent" := ["curl/8.5.0"]]> ∅) |}.

Definition json_builder : RequestBuilder W :=
  fun _ url w => (Ok (json_request url), w).

(** A response handler that fails on every response. *)
Definition failing_handler : ResponseHandler W :=
  fun _ _ w => (Some (OtherError "failed to create file"), w).

Definition crawler (build : RequestBuilder W) (handle : ResponseHandler W)
  : Crawler.t W :=
  {| Crawler.config :=
       {| Config.WorkerCount := 2; Config.RequestBuilder := Some build;
          Config.ResponseHandler := Some handle;
          Config.ErrorHandler := Some log_errors;
          Config.UserAgent := "Custom User Agent";
          Config.RedirectionPolicy := Some (Handlers.DefaultRedirectionPolicy 3);
          Config.Client := None |};
     Crawler.userAgent := "Custom User Agent";
     Crawler.secChUa := UserAgent.generateSecChUa "Custom User Agent";
     Crawler.client := http.zeroClient |}.

(** A generator that yields the URLs of a list. *)
Definition gen (urls : list string) : nat -> option string :=
  fun i => urls !! i.

(** Two workers, one URL: the URL is sent and processed, the generator
    ends, both workers see the closed channel; then the caller cancels
    and Run returns. *)
Definition schedule_done_then_cancel : list Run.label :=
  [ Run.LMain; Run.LMain; Run.LMain; Run.LMain;
    Run.LDispatch Run.OnChan; Run.LDispatch Run.OnChan;
    Run.LWorker 0 Run.OnChan; Run.LWorker 0 Run.OnChan;
    Run.LDispatch Run.OnChan;
    Run.LWorker 0 Run.OnChan; Run.LWorker 1 Run.OnChan;
    Run.LCancel ContextCanceled ].

(** Two workers, one URL: the caller cancels while the dispatcher holds
    the URL; the dispatcher and the first worker take the Done case, the
    second worker sees the closed channel. *)
Definition schedule_cancel_early : list Run.label :=
  [ Run.LMain; Run.LMain; Run.LMain; Run.LMain;
    Run.LDispatch Run.OnChan;
    Run.LCancel ContextCanceled;
    Run.LDispatch Run.OnDone;
    Run.LWorker 0 Run.OnDone; Run.LWorker 1 Run.OnChan ].

(** The crawler of the examples of Run, on a network that is up. *)
Definition net : World W := up "OK".

Definition c2 : Crawler.t W :=
  crawler (@Handlers.DefaultRequestBuilder libs W)
          (@Handlers.DefaultResponseHandler W net).

(** The state after a schedule of a run of [c2] over [urls], entered
    with a context that is not cancelled. *)
Definition after (urls : list string) (ls : list Run.label) : Run.state W :=
  default (Run.init c2 None start)
          (@Run.exec W net c2 0%nat (gen urls) ls (Run.init c2 None start)).

Definition req_for (host : string) : http.Request :=
  {| http.Method := "GET";
     http.Url := {| http.Host := host; http.Raw := "https://" +:+ host |};
     http.Hdr := ∅ |}.

End Toy.

(** ** Specification-level notions *)

Module Spec.

(** [ua] has an occurrence of the pattern Chrome/<digits>. that starts
    after [pre] and whose digits are [v]. *)
Definition occurs_at (ua pre v post : string) : Prop :=
  ua = pre +:+ "Chrome/" +:+ v +:+ "." +:+ post /\
  v ≠ "" /\ all_digits v = true.

(** [v] is the digit string of the first occurrence of the pattern. *)
Definition first_occurrence (ua v : string) : Prop :=
  exists pre post,
    occurs_at ua pre v post /\
    forall pre' v' post',
      occurs_at ua pre' v' post' ->
      (String.length pre <= String.length pre')%nat.

Definition no_occurrence (ua : string) : Prop :=
  forall pre v post, ~ occurs_at ua pre v post.

(** [ua] contains the string [sub]. *)
Definition contains (ua sub : string) : Prop :=
  exists pre post, ua = pre +:+ sub +:+ post.

(** A client-hint string with the given version in each of the three
    brand entries. *)
Definition three_entries (v1 v2 v3 : string) : string :=
  dq +:+ "Chromium" +:+ dq +:+ ";v=" +:+ dq +:+ v1 +:+ dq +:+ ", " +:+
  dq +:+ "Google Chrome" +:+ dq +:+ ";v=" +:+ dq +:+ v2 +:+ dq +:+ ", " +:+
  dq +:+ "Not_A Brand" +:+ dq +:+ ";v=" +:+ dq +:+ v3 +:+ dq.

(** The state in which a computation ends, returned or panicked. *)
Definition final {W A : Type} (o : outcome W A) : State W :=
  match o with
  | Done _ s => s
  | Panic s => s
  end.

(** The number of requests sent in a trace. *)
Fixpoint sends {W : Type} (t : list (Event W)) : nat :=
  match t with
  | EvSend _ _ :: t' => S (sends t')
  | _ :: t' => sends t'
  | [] => O
  end.

(** The URLs for which the request builder was called, in order. *)
Fixpoint builds {W : Type} (t : list (Event W)) : list string :=
  match t with
  | EvBuild url :: t' => url :: builds t'
  | _ :: t' => builds t'
  | [] => []
  end.

(** The client does not verify TLS certificates. *)
Definition tls_disabled (cl : http.Client) : Prop :=
  exists t cfg,
    http.Transport_ cl = http.RT_Transport t /\
    http.TLSClientConfig t = Some cfg /\
    http.tls.InsecureSkipVerify cfg = true.

Section Normal.
Context {L : Libs} {W : Type} {Wd : World W}.

(** The configuration with its defaults filled in, as the documentation
    of [Config] describes them. *)
Definition normalized (config : Config.t W) : Config.t W :=
  {| Config.WorkerCount :=
       if decide (Config.WorkerCount config <= 0) then 10
       else Config.WorkerCount config;
     Config.RequestBuilder :=
       Some (default Handlers.DefaultRequestBuilder (Config.RequestBuilder config));
     Config.ResponseHandler :=
       Some (default Handlers.DefaultResponseHandler (Config.ResponseHandler config));
     Config.ErrorHandler :=
       Some (default Handlers.NoopErrorHandler (Config.ErrorHandler config));
     Config.UserAgent := Config.UserAgent config;
     Config.RedirectionPolicy :=
       Some (default (Handlers.DefaultRedirectionPolicy 3)
                     (Config.RedirectionPolicy config));
     Config.Client := Config.Client config |}.

(** The three callbacks that processURL calls are not nil. *)
Definition callbacks_set (c : Crawler.t W) : Prop :=
  is_Some (Config.RequestBuilder (Crawler.config c)) /\
  is_Some (Config.ResponseHandler (Crawler.config c)) /\
  is_Some (Config.ErrorHandler (Crawler.config c)).

End Normal.

End Spec.

(** ** handlers.go: FileURLs *)

Module Files.

(** An open file as [bufio.Scanner] reads it: the lines it delivers and
    the error it ends with. *)
Record File : Type := {
  lines : list string;
  scan_err : option error;
}.

(** The file system and the standard error stream, over the world [W]. *)
Class FS (W : Type) : Type := {
  os_Open : string -> W -> result File * W;
  file_Close : File -> W -> W;
  stderr_Printf : string -> W -> W;
  (** how [%v] prints an error *)
  error_text : error -> string;
}.

(** [strings.HasPrefix(s, prefix)] *)
Definition HasPrefix (s prefix : string) : bool := String.prefix prefix s.

(** An [iter.Seq[string]]: the function that calls [yield] for each
    element, over the world [W] and the state [S] of the loop body. *)
Definition Seq (W : Type) : Type :=
  forall S : Type, (string -> S -> bool * S) -> W * S -> W * S.

Section FileURLs.
Context {L : Libs} {W : Type} {F : FS W}.

(** The loop over [scanner.Scan()]: the state of the loop body, and
    whether the loop ran to its end ([false]: [yield] returned false
    and the iterator returned). *)
Fixpoint scan {S : Type} (texts : list string) (yield : string -> S -> bool * S)
    (s : S) : bool * S :=
  match texts with
  | [] => (true, s)
  | text :: rest =>
      let line := strings_TrimSpace text in
      if (String.eqb line "" || HasPrefix line "#")%bool then scan rest yield s
      else
        let line :=
          if (negb (HasPrefix line "http://") && negb (HasPrefix line "https://"))%bool
          then "https://" +:+ line else line in
        let '(more, s') := yield line s in
        if more then scan rest yield s' else (false, s')
  end.

(** FileURLs reads hostnames or URLs from a file (one per line) and
    returns an iterator.  Empty lines and lines starting with # are
    skipped; a line without a scheme gets "https://" in front. *)
Definition FileURLs (path : string) : Seq W :=
  fun S yield '(w, s) =>
    match os_Open path w with
    | (Err err, w) =>
        (stderr_Printf ("Error opening file " +:+ path +:+ ": "
                        +:+ error_text err +:+ Handlers.newline) w, s)
    | (Ok file, w) =>
        let '(ended, s) := scan (lines file) yield s in
        let w :=
          if ended then
            match scan_err file with
            | Some err =>
                stderr_Printf ("Error reading file " +:+ path +:+ ": "
                               +:+ error_text err +:+ Handlers.newline) w
            | None => w
            end
          else w in
        (* defer file.Close() *)
        (file_Close file w, s)
    end.

(** ErrorLoggerStdout returns an ErrorHandler that logs errors; it
    writes to the standard error stream. *)
Definition ErrorLoggerStdout : ErrorHandler W :=
  fun url err w =>
    stderr_Printf ("ERROR: " +:+ url +:+ " -> " +:+ error_text err
                   +:+ Handlers.newline) w.

End FileURLs.

(** Two loop bodies: [for url := range seq { urls = append(urls, url) }]
    and the same with a [break] once there are [n] URLs. *)
Definition collect : string -> list string -> bool * list string :=
  fun url urls => (true, urls ++ [url]).

Definition collect_upto (n : nat) : string -> list string -> bool * list string :=
  fun url urls => (negb (n <=? length (urls ++ [url]))%nat, urls ++ [url]).

(** The URL that a line of the file stands for, if any. *)
Definition url_of {L : Libs} (text : string) : option string :=
  let line := strings_TrimSpace text in
  if (String.eqb line "" || HasPrefix line "#")%bool then None
  else if (HasPrefix line "http://" || HasPrefix line "https://")%bool then Some line
  else Some ("https://" +:+ line).

End Files.

(** ** Counting the calls of a trace *)

Module Trace.

Section Count.
Context {W : Type}.

Definition is_close (ev : Event W) : bool :=
  match ev with EvClose => true | _ => false end.
Definition is_read (ev : Event W) : bool :=
  match ev with EvReadAll => true | _ => false end.
Definition is_handle (ev : Event W) : bool :=
  match ev with EvHandle _ _ => true | _ => false end.
Definition is_error (ev : Event W) : bool :=
  match ev with EvError _ _ => true | _ => false end.
Definition is_send (ev : Event W) : bool :=
  match ev with EvSend _ _ => true | _ => false end.
Definition is_build (ev : Event W) : bool :=
  match ev with EvBuild _ => true | _ => false end.

(** The number of events of a kind in a trace. *)
Definition count (kind : Event W -> bool) (t : list (Event W)) : nat :=
  length (filter (fun ev => kind ev = true) t).

End Count.

End Trace.

(** ** The queue of a run *)

Module Queue.

(** The first [n] URLs of the generator. *)
Fixpoint gen_prefix (urlGen : nat -> option string) (n : nat) : list string :=
  match n with
  | O => []
  | S m =>
      gen_prefix urlGen m ++
      match urlGen m with
      | Some url => [url]
      | None => []
      end
  end.

(** The URL a worker holds. *)
Definition held (w : Run.wstate) : list string :=
  match w with
  | Run.WProcess url => [url]
  | _ => []
  end.

(** The URLs that workers have received and not yet processed. *)
Definition in_flight (ws : list Run.wstate) : list string :=
  concat (map held ws).

End Queue.

(** ** More examples *)

Module Toy2.

(** The value of a computation that returned. *)
Definition value {W A : Type} (o : outcome W A) (d : A) : A :=
  match o with
  | Done a _ => a
  | Panic _ => d
  end.

(** The crawler that New builds from [Toy.custom]. *)
Definition built : Crawler.t Toy.W :=
  {| Crawler.config :=
       {| Config.WorkerCount := 5;
          Config.RequestBuilder := Some (@Handlers.DefaultRequestBuilder Toy.libs _);
          Config.ResponseHandler := Some (@Handlers.DefaultResponseHandler _ Toy.down);
          Config.ErrorHandler := Some (@Handlers.NoopErrorHandler _);
          Config.UserAgent := "Custom User Agent";
          Config.RedirectionPolicy := Some (Handlers.DefaultRedirectionPolicy 3);
          Config.Client := None |};
     Crawler.userAgent := "Custom User Agent";
     Crawler.secChUa := UserAgent.generateSecChUa "Custom User Agent";
     Crawler.client :=
       {| http.CheckRedirect := Some (Handlers.DefaultRedirectionPolicy 3);
          http.Transport_ :=
            http.RT_Transport
              {| http.TLSClientConfig :=
                   Some {| http.tls.InsecureSkipVerify := true;
                           http.tls.ServerName := "" |};
                 http.MaxIdleConns := 0 |};
          http.Timeout := 0 |} |}.



(** The state after a schedule of a run of [built] over [urls], with no
    host in reach, entered with a context that is not cancelled. *)
Definition after (urls : list string) (ls : list Run.label) : Run.state Toy.W :=
  default (Run.init built None Toy.start)
          (@Run.exec Toy.W Toy.down built 0%nat (Toy.gen urls) ls
             (Run.init built None Toy.start)).

End Toy2.

(** ** The reports of processURL *)

Module Report.

(** The call of the error handler that an error leads to. *)
Definition errs {W : Type} (url : string) (o : option error) : list (Event W) :=
  match o with
  | Some e => [EvError url e]
  | None => []
  end.

End Report.

(** ** Observing an iterator *)

Module Yield.

(** The loop body [yield] with a log of the URLs it was called with. *)
Definition logged {S : Type} (yield : string -> S -> bool * S)
  : string -> S * list string -> bool * (S * list string) :=
  fun url '(s, log) =>
    let '(more, s') := yield url s in (more, (s', log ++ [url])).

(** [url] starts with a scheme. *)
Definition has_scheme (url : string) : bool :=
  (Files.HasPrefix url "http://" || Files.HasPrefix url "https://")%bool.

End Yield.

(** ** A file of hosts *)

Module ToyFS.

Definition error_text (e : error) : string :=
  match e with
  | ErrUseLastResponse => "net/http: use last response"
  | ContextCanceled => "context canceled"
  | DeadlineExceeded => "context deadline exceeded"
  | OtherError msg => msg
  end.

(** A file with a comment, an empty line, a host, two URLs, and a line
    that is too long for the scanner after them. *)
Definition hosts : Files.File :=
  {| Files.lines := ["# hosts"; "example.com"; "";
                     "  http://example.org/a  "; "https://example.net"];
     Files.scan_err := Some (OtherError "bufio.Scanner: token too long") |}.

(** The world is the text written to the standard error stream, and a
    line for each file that was closed. *)
#[export] Instance fs : Files.FS Toy.W :=
  {| Files.os_Open := fun path w =>
       if String.eqb path "hosts.txt" then (Ok hosts, w)
       else (Err (OtherError ("open " +:+ path +:+ ": no such file or directory")), w);
     Files.file_Close := fun _ w => w ++ ["closed"];
     Files.stderr_Printf := fun line w => w ++ [line];
     Files.error_text := error_text |}.

End ToyFS.

(** * Properties *)

(** ** Strings *)

Lemma append_cons (x : ascii) (a b : string) : String x a +:+ b = String x (a +:+ b).
Proof. reflexivity. Qed.

Lemma append_nil_l (b : string) : "" +:+ b = b.
Proof. reflexivity. Qed.

(** Push the appends of a term inside, as far as the strings are known. *)
Ltac sapp := repeat (rewrite append_cons || rewrite append_nil_l).
Ltac sapp_in H := repeat (rewrite append_cons in H || rewrite append_nil_l in H).

Lemma take_drop (n : nat) (s : string) : string_take n s +:+ string_drop n s = s.
Proof.
  revert s; induction n as [|n IH]; intros [|x s]; simpl; sapp; try reflexivity.
  f_equal. apply IH.
Qed.

Lemma drop_append (a b : string) : string_drop (String.length a) (a +:+ b) = b.
Proof. induction a as [|x a IH]; sapp; simpl; [reflexivity | exact IH]. Qed.

Lemma take_append (a b : string) : string_take (String.length a) (a +:+ b) = a.
Proof.
  induction a as [|x a IH]; sapp; simpl; [now destruct b | f_equal; exact IH].
Qed.

Lemma take_digit_run (k : nat) (s : string) :
  (k <= digit_run s)%nat -> all_digits (string_take k s) = true.
Proof.
  revert s; induction k as [|k IH]; intros [|x s] Hk; simpl in *;
    try reflexivity.
  destruct (is_digit x) eqn:Hx; [| lia].
  simpl. apply IH. lia.
Qed.

Lemma digit_run_append (v rest : string) :
  all_digits v = true ->
  digit_run (v +:+ rest) = (String.length v + digit_run rest)%nat.
Proof.
  induction v as [|x v IH]; sapp; simpl; intros Hv; [reflexivity |].
  apply andb_true_iff in Hv as [Hx Hv]. rewrite Hx, IH by exact Hv. reflexivity.
Qed.


(** ** The regexp matcher *)

Lemma greedy_first {R : Type} (k : nat) (f : nat -> option R) (r : R) :
  (1 <= k)%nat -> f k = Some r -> Regexp.greedy k f = Some r.
Proof.
  destruct k as [|k]; [lia |]. intros _ Hf. simpl. now rewrite Hf.
Qed.

Lemma greedy_inv {R : Type} (k : nat) (f : nat -> option R) (r : R) :
  Regexp.greedy k f = Some r ->
  exists j, (1 <= j <= k)%nat /\ f j = Some r.
Proof.
  induction k as [|k IH]; simpl; [discriminate |].
  destruct (f (S k)) as [r'|] eqn:Hf.
  - intros [= ->]. exists (S k). split; [lia | exact Hf].
  - intros H. destruct (IH H) as (j & Hj & Hfj). exists j. split; [lia | exact Hfj].
Qed.

Lemma match_dot (t : string) (caps : list string) (n : nat) :
  Regexp.match_here [Regexp.Lit "."%char] t = Some (caps, n) ->
  exists post, t = "." +:+ post /\ caps = [] /\ n = 1%nat.
Proof.
  destruct t as [|x t]; cbn [Regexp.match_here]; [discriminate |].
  destruct (Ascii.eqb_spec "."%char x) as [<-|]; [| discriminate].
  intros [= <- <-]. exists t. sapp. auto.
Qed.

Lemma match_here_digits (p : Regexp.regexp) (s : string) :
  Regexp.match_here (Regexp.Digits1 :: p) s =
  Regexp.greedy (digit_run s)
    (fun k => match Regexp.match_here p (string_drop k s) with
              | Some (caps, n) => Some (string_take k s :: caps, (k + n)%nat)
              | None => None
              end).
Proof. reflexivity. Qed.

Lemma match_here_lit (c : ascii) (p : Regexp.regexp) (s : string) :
  Regexp.match_here (Regexp.Lit c :: p) (String c s) =
  match Regexp.match_here p s with
  | Some (caps, n) => Some (caps, S n)
  | None => None
  end.
Proof. cbn [Regexp.match_here]. now rewrite Ascii.eqb_refl. Qed.

(** What a match of [(\d+)\.] at the start of [s] looks like. *)
Lemma match_digits_dot (s : string) (caps : list string) (n : nat) :
  Regexp.match_here [Regexp.Digits1; Regexp.Lit "."%char] s = Some (caps, n) ->
  exists v post,
    s = v +:+ "." +:+ post /\ v ≠ "" /\ all_digits v = true /\ caps = [v].
Proof.
  rewrite match_here_digits. intros H.
  apply greedy_inv in H as (j & Hj & Hf). cbv beta in Hf.
  destruct (Regexp.match_here [Regexp.Lit "."%char] (string_drop j s))
    as [[caps' n']|] eqn:Hm; [| discriminate].
  injection Hf as <- <-.
  apply match_dot in Hm as (post & Hdrop & -> & ->).
  exists (string_take j s), post. repeat split.
  - rewrite <- Hdrop. symmetry. apply take_drop.
  - destruct j as [|j]; [lia |]. destruct s as [|x s]; [| discriminate].
    simpl in Hj. lia.
  - apply take_digit_run. lia.
Qed.

Lemma match_digits_dot_intro (v post : string) :
  v ≠ "" -> all_digits v = true ->
  exists n, Regexp.match_here [Regexp.Digits1; Regexp.Lit "."%char]
              (v +:+ "." +:+ post) = Some ([v], n).
Proof.
  intros Hne Hv. rewrite match_here_digits.
  rewrite digit_run_append by exact Hv.
  replace (digit_run ("." +:+ post)) with 0%nat by reflexivity.
  rewrite Nat.add_0_r.
  eexists. apply greedy_first.
  - destruct v; [congruence | simpl; lia].
  - rewrite drop_append, take_append. reflexivity.
Qed.

Lemma match_chrome_inv (s : string) (caps : list string) (n : nat) :
  Regexp.match_here UserAgent.chrome_re s = Some (caps, n) ->
  exists v post,
    s = "Chrome/" +:+ v +:+ "." +:+ post /\
    v ≠ "" /\ all_digits v = true /\ caps = [v].
Proof.
  unfold UserAgent.chrome_re. cbn [Regexp.lits app].
  intros H.
  do 7 (destruct s as [|? s]; [discriminate |];
        cbn [Regexp.match_here] in H;
        match type of H with
        | context [Ascii.eqb ?a ?b] =>
            destruct (Ascii.eqb_spec a b) as [<-|]; [| discriminate]
        end).
  fold (Regexp.match_here [Regexp.Digits1; Regexp.Lit "."%char] s) in H.
  destruct (Regexp.match_here [Regexp.Digits1; Regexp.Lit "."%char] s)
    as [[caps' n']|] eqn:Hm; [| discriminate].
  apply match_digits_dot in Hm as (v & post & -> & Hne & Hv & ->).
  exists v, post. sapp. repeat split; try assumption. congruence.
Qed.

Lemma match_chrome_intro (v post : string) :
  v ≠ "" -> all_digits v = true ->
  exists n, Regexp.match_here UserAgent.chrome_re
              ("Chrome/" +:+ v +:+ "." +:+ post) = Some ([v], n).
Proof.
  intros Hne Hv.
  destruct (match_digits_dot_intro v post Hne Hv) as (n & Hn).
  unfold UserAgent.chrome_re. cbn [Regexp.lits app]. sapp.
  rewrite !match_here_lit. sapp_in Hn. rewrite Hn. eauto.
Qed.

Lemma find_from_nil (p : Regexp.regexp) (s : string) (fuel : nat) :
  (String.length s <= fuel)%nat ->
  Regexp.find_from p s fuel = [] ->
  forall pre rest, s = pre +:+ rest -> Regexp.match_here p rest = None.
Proof.
  revert fuel. induction s as [|x s IH]; intros fuel Hfuel Hfind pre rest Heq.
  - destruct pre; sapp_in Heq; [| discriminate]. subst rest.
    destruct fuel; simpl in Hfind;
      destruct (Regexp.match_here p "") as [[? ?]|]; congruence.
  - destruct fuel as [|fuel]; [simpl in Hfuel; lia |].
    cbn [Regexp.find_from] in Hfind.
    destruct (Regexp.match_here p (String x s)) as [[? ?]|] eqn:Hm;
      [discriminate |].
    destruct pre as [|y pre]; sapp_in Heq.
    + now subst rest.
    + injection Heq as -> Heq.
      eapply (IH fuel); [simpl in Hfuel; lia | exact Hfind | exact Heq].
Qed.

Lemma find_from_cons (p : Regexp.regexp) (s : string) (fuel : nat)
    (m : string) (caps : list string) :
  (String.length s <= fuel)%nat ->
  Regexp.find_from p s fuel = m :: caps ->
  exists pre rest n,
    s = pre +:+ rest /\ Regexp.match_here p rest = Some (caps, n) /\
    forall pre' rest',
      s = pre' +:+ rest' -> (String.length pre' < String.length pre)%nat ->
      Regexp.match_here p rest' = None.
Proof.
  revert fuel. induction s as [|x s IH]; intros fuel Hfuel Hfind.
  - exists "", "". 
    destruct fuel; simpl in Hfind;
      destruct (Regexp.match_here p "") as [[caps' n]|] eqn:Hm; try discriminate;
      injection Hfind as <- <-; exists n; (split; [reflexivity |]);
      (split; [first [exact Hm | reflexivity] |]);
      intros ? ? _ Hlt; simpl in Hlt; lia.
  - destruct (Regexp.match_here p (String x s)) as [[caps' n]|] eqn:Hm.
    + exists "", (String x s), n.
      assert (caps' = caps) as ->.
      { destruct fuel; simpl in Hfind; rewrite Hm in Hfind; congruence. }
      split; [reflexivity |]. split; [exact Hm |].
      intros ? ? _ Hlt; simpl in Hlt; lia.
    + destruct fuel as [|fuel]; [simpl in Hfuel; lia |].
      cbn [Regexp.find_from] in Hfind. rewrite Hm in Hfind.
      destruct (IH fuel) as (pre & rest & n & -> & Hrest & Hmin);
        [simpl in Hfuel; lia | exact Hfind |].
      exists (String x pre), rest, n. sapp.
      split; [reflexivity |]. split; [exact Hrest |].
      intros pre' rest' Heq Hlt.
      destruct pre' as [|y pre']; sapp_in Heq.
      * now subst rest'.
      * injection Heq as -> Heq. apply (Hmin pre' rest' Heq).
        simpl in Hlt. lia.
Qed.

Lemma append_same_length (a b a' b' : string) :
  a +:+ b = a' +:+ b' -> String.length a = String.length a' -> b = b'.
Proof.
  intros Heq Hlen.
  rewrite <- (drop_append a b), <- (drop_append a' b'), Heq, Hlen. reflexivity.
Qed.

(** ** extractChromeVersion and generateSecChUa (C5, C6) *)

(** The result of the search, read as the specification reads it. *)
Lemma find_chrome_cases (ua : string) :
  match Regexp.FindStringSubmatch UserAgent.chrome_re ua with
  | [] => Spec.no_occurrence ua
  | _ :: caps => exists v, caps = [v] /\ Spec.first_occurrence ua v
  end.
Proof.
  unfold Regexp.FindStringSubmatch.
  destruct (Regexp.find_from UserAgent.chrome_re ua (String.length ua))
    as [|m caps] eqn:Hfind.
  - intros pre v post (Heq & Hne & Hv).
    pose proof (find_from_nil _ _ _ (Nat.le_refl _) Hfind pre _ Heq) as Hnone.
    destruct (match_chrome_intro v post Hne Hv) as (n & Hsome). congruence.
  - apply find_from_cons in Hfind as (pre & rest & n & Heq & Hm & Hmin);
      [| apply Nat.le_refl].
    apply match_chrome_inv in Hm as (v & post & -> & Hne & Hv & ->).
    exists v. split; [reflexivity |]. exists pre, post.
    split; [repeat split; assumption |].
    intros pre' v' post' (Heq' & Hne' & Hv').
    destruct (Nat.le_gt_cases (String.length pre) (String.length pre'))
      as [Hle|Hlt]; [exact Hle | exfalso].
    pose proof (Hmin pre' _ Heq' Hlt) as Hnone.
    destruct (match_chrome_intro v' post' Hne' Hv') as (n' & Hsome). congruence.
Qed.

Lemma first_occurrence_unique (ua v v' : string) :
  Spec.first_occurrence ua v -> Spec.first_occurrence ua v' -> v = v'.
Proof.
  intros (pre & post & Hocc & Hmin) (pre' & post' & Hocc' & Hmin').
  pose proof (Hmin _ _ _ Hocc') as H1. pose proof (Hmin' _ _ _ Hocc) as H2.
  destruct Hocc as (Heq & Hne & Hv), Hocc' as (Heq' & Hne' & Hv').
  assert (Hrest : "Chrome/" +:+ v +:+ "." +:+ post
                  = "Chrome/" +:+ v' +:+ "." +:+ post').
  { apply (append_same_length pre _ pre' _); [congruence | lia]. }
  destruct (match_chrome_intro v post Hne Hv) as (n & Hm).
  destruct (match_chrome_intro v' post' Hne' Hv') as (n' & Hm').
  rewrite Hrest in Hm. congruence.
Qed.

Lemma extractChromeVersion_first (ua v : string) :
  Spec.first_occurrence ua v -> UserAgent.extractChromeVersion ua = v.
Proof.
  intros Hfirst. unfold UserAgent.extractChromeVersion.
  pose proof (find_chrome_cases ua) as Hcases.
  destruct (Regexp.FindStringSubmatch UserAgent.chrome_re ua) as [|m caps].
  - destruct Hfirst as (pre & post & Hocc & _). now destruct (Hcases _ _ _ Hocc).
  - destruct Hcases as (v0 & -> & Hfirst0).
    eapply first_occurrence_unique; eassumption.
Qed.

Lemma extractChromeVersion_none (ua : string) :
  Spec.no_occurrence ua -> UserAgent.extractChromeVersion ua = "144".
Proof.
  intros Hnone. unfold UserAgent.extractChromeVersion.
  pose proof (find_chrome_cases ua) as Hcases.
  destruct (Regexp.FindStringSubmatch UserAgent.chrome_re ua) as [|m caps].
  - reflexivity.
  - destruct Hcases as (v0 & -> & (pre & post & Hocc & _)).
    now destruct (Hnone _ _ _ Hocc).
Qed.

(** A search that finds [v] shows that [v] is the first occurrence: this
    is how the hypothesis is checked on a given string. *)
Lemma first_occurrence_by_search (ua m v : string) :
  Regexp.FindStringSubmatch UserAgent.chrome_re ua = [m; v] ->
  Spec.first_occurrence ua v.
Proof.
  intros Hfind. pose proof (find_chrome_cases ua) as Hcases.
  rewrite Hfind in Hcases. destruct Hcases as (v0 & [= <-] & H). exact H.
Qed.

Lemma no_occurrence_by_search (ua : string) :
  Regexp.FindStringSubmatch UserAgent.chrome_re ua = [] ->
  Spec.no_occurrence ua.
Proof.
  intros Hfind. pose proof (find_chrome_cases ua) as Hcases.
  now rewrite Hfind in Hcases.
Qed.

(** C5: generateSecChUa is a function of the user-agent string alone.  Its
    version is the digit string of the first occurrence of the pattern
    Chrome/<digits>. in the input, or the fallback 144 when the pattern
    does not occur (one of the two is always the case), and its result is
    exactly "Chromium";v="<version>", "Google Chrome";v="<version>",
    "Not_A Brand";v="99". *)
Theorem generateSecChUa_spec (ua : string) :
  (forall v, Spec.first_occurrence ua v ->
     UserAgent.generateSecChUa ua = Spec.three_entries v v "99") /\
  (Spec.no_occurrence ua ->
     UserAgent.generateSecChUa ua = Spec.three_entries "144" "144" "99") /\
  ((exists v, Spec.first_occurrence ua v) \/ Spec.no_occurrence ua).
Proof.
  unfold UserAgent.generateSecChUa. split; [| split].
  - intros v Hv. now rewrite (extractChromeVersion_first ua v Hv).
  - intros Hnone. now rewrite (extractChromeVersion_none ua Hnone).
  - pose proof (find_chrome_cases ua) as Hcases.
    destruct (Regexp.FindStringSubmatch UserAgent.chrome_re ua) as [|m caps].
    + now right.
    + left. destruct Hcases as (v & _ & Hv). now exists v.
Qed.

(** The two cases of C5 on the strings of the package's own test. *)
Lemma generateSecChUa_spec_witness :
  UserAgent.generateSecChUa
    "Mozilla/5.0 (Windows NT 10.0; Win64; x64) AppleWebKit/537.36 (KHTML, like Gecko) Chrome/142.5.6789.123 Safari/537.36"
  = Spec.three_entries "142" "142" "99" /\
  UserAgent.generateSecChUa "Some Random User Agent"
  = Spec.three_entries "144" "144" "99".
Proof.
  split.
  - apply (proj1 (generateSecChUa_spec _)).
    apply (first_occurrence_by_search _ "Chrome/142."). vm_compute. reflexivity.
  - apply (proj1 (proj2 (generateSecChUa_spec _))).
    apply no_occurrence_by_search. vm_compute. reflexivity.
Defined.

(** C6, as stated, fails: on the default user agent, which contains
    Chrome/144.0.0.0, the third brand entry carries 99 and not 144; and a
    string that contains Chrome/144.0.0.0 after an earlier occurrence of
    the pattern gets the earlier version. *)
Lemma generateSecChUa_144_counterexample :
  (Spec.contains UserAgent.defaultUserAgent "Chrome/144.0.0.0" /\
   UserAgent.generateSecChUa UserAgent.defaultUserAgent
   <> Spec.three_entries "144" "144" "144") /\
  (Spec.contains "Chrome/100.0 Chrome/144.0.0.0" "Chrome/144.0.0.0" /\
   UserAgent.generateSecChUa "Chrome/100.0 Chrome/144.0.0.0"
   = Spec.three_entries "100" "100" "99").
Proof.
  split; split.
  - exists "Mozilla/5.0 (Macintosh; Intel Mac OS X 10_15_7) AppleWebKit/537.36 (KHTML, like Gecko) ",
      " Safari/537.36". reflexivity.
  - vm_compute. discriminate.
  - exists "Chrome/100.0 ", "". reflexivity.
  - vm_compute. reflexivity.
Qed.

(** C6, amended: when the first occurrence of the pattern Chrome/<digits>.
    in the user agent is Chrome/144., the Chromium and Google Chrome
    entries carry 144 and the third entry is "Not_A Brand";v="99"; a
    string without the pattern gets the fallback 144 in the same two
    entries. *)
Theorem generateSecChUa_144 (ua : string) :
  (Spec.first_occurrence ua "144" ->
     UserAgent.generateSecChUa ua = Spec.three_entries "144" "144" "99") /\
  (Spec.no_occurrence ua ->
     UserAgent.generateSecChUa ua = Spec.three_entries "144" "144" "99").
Proof.
  split.
  - intros H. unfold UserAgent.generateSecChUa.
    now rewrite (extractChromeVersion_first ua "144" H).
  - intros H. unfold UserAgent.generateSecChUa.
    now rewrite (extractChromeVersion_none ua H).
Qed.

Lemma generateSecChUa_144_witness :
  (Spec.contains UserAgent.defaultUserAgent "Chrome/144.0.0.0" /\
   UserAgent.generateSecChUa UserAgent.defaultUserAgent
   = Spec.three_entries "144" "144" "99") /\
  UserAgent.generateSecChUa "curl/8.5.0" = Spec.three_entries "144" "144" "99".
Proof.
  split; [split |].
  - exists "Mozilla/5.0 (Macintosh; Intel Mac OS X 10_15_7) AppleWebKit/537.36 (KHTML, like Gecko) ",
      " Safari/537.36". reflexivity.
  - apply (proj1 (generateSecChUa_144 UserAgent.defaultUserAgent)).
    apply (first_occurrence_by_search _ "Chrome/144."). vm_compute. reflexivity.
  - apply (proj2 (generateSecChUa_144 "curl/8.5.0")).
    apply no_occurrence_by_search. vm_compute. reflexivity.
Defined.

(** ** The redirection policies (C3, C4) *)

(** C4: for every limit n and every chain, the policy of
    DefaultRedirectionPolicy(n) returns nil exactly when the chain is
    shorter than n; every other answer is ErrUseLastResponse; and the
    answer depends on the length of the chain only. *)
Theorem DefaultRedirectionPolicy_spec (n : Z) (req : http.Request)
    (via : list http.Request) :
  (Handlers.DefaultRedirectionPolicy n req via = None <->
     Z.of_nat (length via) < n) /\
  (Handlers.DefaultRedirectionPolicy n req via <> None ->
     Handlers.DefaultRedirectionPolicy n req via = Some ErrUseLastResponse) /\
  (forall req' via', length via' = length via ->
     Handlers.DefaultRedirectionPolicy n req' via'
     = Handlers.DefaultRedirectionPolicy n req via).
Proof.
  unfold Handlers.DefaultRedirectionPolicy. split; [| split].
  - destruct (Z.geb_spec (Z.of_nat (length via)) n); split;
      intros; try lia; congruence.
  - destruct (Z.of_nat (length via) >=? n); congruence.
  - intros req' via' ->. reflexivity.
Qed.

(** With limit 3, a chain of two is allowed and a chain of three is not. *)
Lemma DefaultRedirectionPolicy_spec_witness :
  Handlers.DefaultRedirectionPolicy 3 (Toy.req_for "example.com")
    (replicate 2 (Toy.req_for "example.com")) = None /\
  Handlers.DefaultRedirectionPolicy 3 (Toy.req_for "example.com")
    (replicate 3 (Toy.req_for "example.com")) = Some ErrUseLastResponse.
Proof.
  split.
  - apply (proj1 (DefaultRedirectionPolicy_spec 3 _ _)). simpl. lia.
  - apply (proj1 (proj2 (DefaultRedirectionPolicy_spec 3 _ _))).
    vm_compute. discriminate.
Defined.

(** C3: on a chain that is not empty, SameDomainRedirectionPolicy returns
    nil exactly when the chain has fewer than 3 requests and the hosts of
    the pending request and of the first request of the chain have the
    same effective TLD plus one; it vetoes a chain of 3 or more, a host
    that has no effective TLD plus one, and two different domains; and a
    veto is always ErrUseLastResponse. *)
Theorem SameDomainRedirectionPolicy_spec {L : Libs} (req first : http.Request)
    (rest : list http.Request) :
  let via := first :: rest in
  let policy := Handlers.SameDomainRedirectionPolicy in
  let domain r := publicsuffix_EffectiveTLDPlusOne (http.Host (http.Url r)) in
  (policy req via = None <->
     (length via < 3)%nat /\
     exists d, domain first = Ok d /\ domain req = Ok d) /\
  ((3 <= length via)%nat -> policy req via = Some ErrUseLastResponse) /\
  (forall e, domain first = Err e -> policy req via = Some ErrUseLastResponse) /\
  (forall e, domain req = Err e -> policy req via = Some ErrUseLastResponse) /\
  (forall d1 d2, domain first = Ok d1 -> domain req = Ok d2 -> d1 <> d2 ->
     policy req via = Some ErrUseLastResponse) /\
  (policy req via <> None -> policy req via = Some ErrUseLastResponse).
Proof.
  cbv zeta. unfold Handlers.SameDomainRedirectionPolicy.
  destruct (Z.geb_spec (Z.of_nat (length (first :: rest))) 3) as [Hge|Hlt].
  { split; [split; [discriminate | intros [H _]; lia] |].
    repeat (split; [intros; reflexivity |]). intros; reflexivity. }
  destruct (publicsuffix_EffectiveTLDPlusOne (http.Host (http.Url first)))
    as [d1|e1] eqn:H1.
  2: { split; [split; [discriminate | intros [_ (d & ? & _)]; discriminate] |].
       repeat (split; [intros; first [reflexivity | lia | discriminate] |]).
       intros; reflexivity. }
  destruct (publicsuffix_EffectiveTLDPlusOne (http.Host (http.Url req)))
    as [d2|e2] eqn:H2.
  2: { split; [split; [discriminate | intros [_ (d & _ & ?)]; discriminate] |].
       repeat (split; [intros; first [reflexivity | lia | discriminate] |]).
       intros; reflexivity. }
  destruct (decide (d1 <> d2)) as [Hne|Heq].
  - split; [split; [discriminate | intros [_ (d & ? & ?)]; congruence] |].
    repeat (split; [intros; first [reflexivity | lia | discriminate] |]).
    intros; reflexivity.
  - assert (d1 = d2) as <- by (destruct (decide (d1 = d2)); [assumption | tauto]).
    split; [split; [intros _; split; [lia | eauto] | reflexivity] |].
    split; [intros; lia |].
    split; [intros; discriminate |].
    split; [intros; discriminate |].
    split; [intros ? ? [= <-] [= <-] ?; congruence |].
    intros; congruence.
Qed.

(** The three cases of the package's test, on a suffix list that has
    "com". *)
Lemma SameDomainRedirectionPolicy_spec_witness :
  let policy := @Handlers.SameDomainRedirectionPolicy Toy.libs in
  policy (Toy.req_for "www.example.com") [Toy.req_for "example.com"] = None /\
  policy (Toy.req_for "other.com") [Toy.req_for "example.com"]
  = Some ErrUseLastResponse /\
  policy (Toy.req_for "example.com")
    [Toy.req_for "example.com"; Toy.req_for "www.example.com";
     Toy.req_for "api.example.com"] = Some ErrUseLastResponse.
Proof.
  cbv zeta. split; [| split].
  - apply (proj1 (@SameDomainRedirectionPolicy_spec Toy.libs _ _ _)).
    split; [simpl; lia |]. exists "example.com". split; vm_compute; reflexivity.
  - apply (proj1 (proj2 (proj2 (proj2 (proj2
             (@SameDomainRedirectionPolicy_spec Toy.libs _ _ _)))))
             "example.com" "other.com");
      [vm_compute; reflexivity | vm_compute; reflexivity | discriminate].
  - apply (proj1 (proj2 (@SameDomainRedirectionPolicy_spec Toy.libs _ _ _))).
    simpl. lia.
Defined.

(** ** The monad *)

Lemma bind_Done {W A B : Type} (m : M W A) (k : A -> M W B) (s s' : State W) (a : A) :
  m s = Done a s' -> (m ≫= k) s = k a s'.
Proof. intros H. unfold mbind, M_bind. now rewrite H. Qed.

Lemma bind_Done_ex {W A B : Type} (m : M W A) (f : A -> B) (s s' : State W) (a : A) :
  m s = Done a s' -> exists b, (m ≫= fun x => mret (f x)) s = Done b s'.
Proof. intros H. unfold mbind, M_bind, mret, M_ret. rewrite H. eauto. Qed.

Lemma call_Done {W A : Type} (ev : Event W) (f : W -> A * W) (s : State W) :
  call ev f s = Done (f (world s)).1
                     {| world := (f (world s)).2; trace := trace s ++ [ev] |}.
Proof. unfold call. now destruct (f (world s)). Qed.

Lemma sends_app {W : Type} (t1 t2 : list (Event W)) :
  Spec.sends (t1 ++ t2) = (Spec.sends t1 + Spec.sends t2)%nat.
Proof.
  induction t1 as [|ev t1 IH]; [reflexivity |].
  destruct ev; simpl; rewrite IH; reflexivity.
Qed.

Lemma builds_app {W : Type} (t1 t2 : list (Event W)) :
  Spec.builds (t1 ++ t2) = Spec.builds t1 ++ Spec.builds t2.
Proof.
  induction t1 as [|ev t1 IH]; [reflexivity |].
  destruct ev; simpl; rewrite IH; reflexivity.
Qed.

(** Unfold the monad and its primitives. *)
Ltac mred :=
  unfold mbind, mret, M_bind, M_ret, call_, call, nilable, panic in *.

(** ** getUserAgent and fetchUserAgent (C7) *)

Section GetUserAgent.
Context {L : Libs} {W : Type} {Wd : World W}.
Implicit Types (config : Config.t W) (s : State W).

Lemma getUserAgent_explicit ctx config s :
  Config.UserAgent config ≠ "" ->
  UserAgent.getUserAgent ctx config s = Done (Config.UserAgent config) s.
Proof.
  intros H. unfold UserAgent.getUserAgent.
  destruct (decide (Config.UserAgent config ≠ "")); [reflexivity | contradiction].
Qed.

Lemma getUserAgent_fetch ctx config s :
  Config.UserAgent config = "" ->
  UserAgent.getUserAgent ctx config s = UserAgent.fetchUserAgent ctx s.
Proof.
  intros H. unfold UserAgent.getUserAgent.
  destruct (decide (Config.UserAgent config ≠ "")); [contradiction | reflexivity].
Qed.

(** C7: a non-empty user agent of the config is returned unchanged and
    nothing is sent.  With an empty one there is one fetch: when the
    request cannot be built the result is the default user agent; when it
    is sent, exactly one request goes out, and the result is the default
    user agent if the send fails, if the status is not 200, if reading
    the body fails or if the trimmed body is empty, and the trimmed body
    otherwise. *)
Theorem getUserAgent_spec ctx config s :
  let run := UserAgent.getUserAgent ctx config s in
  let fallback := UserAgent.defaultUserAgent in
  let request := http_NewRequestWithContext ctx "GET" UserAgent.apiURL in
  (Config.UserAgent config ≠ "" -> run = Done (Config.UserAgent config) s) /\
  (Config.UserAgent config = "" ->
   (forall e, request = Err e -> run = Done fallback s) /\
   (forall req, request = Ok req ->
    let answer := http_Client_Do http.DefaultClient req (world s) in
    (forall e, answer.1 = Err e ->
       run = Done fallback
               {| world := answer.2;
                  trace := trace s ++ [EvSend http.DefaultClient req] |}) /\
    (forall resp body, answer.1 = Ok resp -> http.Body resp = Some body ->
       let read := http.ReadAll body answer.2 in
       Spec.sends (trace (Spec.final run)) = S (Spec.sends (trace s)) /\
       (http.StatusCode resp ≠ 200 -> exists s', run = Done fallback s') /\
       (http.StatusCode resp = 200 ->
          (forall e, read.1.2 = Some e -> exists s', run = Done fallback s') /\
          (read.1.2 = None -> strings_TrimSpace read.1.1 = "" ->
             exists s', run = Done fallback s') /\
          (read.1.2 = None -> strings_TrimSpace read.1.1 ≠ "" ->
             exists s', run = Done (strings_TrimSpace read.1.1) s'))))).
Proof.
  cbv zeta. split; [apply getUserAgent_explicit |].
  intros Hempty. rewrite (getUserAgent_fetch _ _ _ Hempty).
  unfold UserAgent.fetchUserAgent.
  destruct (http_NewRequestWithContext ctx "GET" UserAgent.apiURL) as [req|e0].
  2: { split; [intros; reflexivity | intros; discriminate]. }
  split; [intros; discriminate |]. intros ? [= <-].
  rewrite (bind_Done _ _ _ _ _ (call_Done _ _ _)).
  destruct (http_Client_Do http.DefaultClient req (world s)) as [[resp|e1] w1];
    cbn [fst snd].
  2: { split; [intros; reflexivity | intros; discriminate]. }
  split; [intros; discriminate |]. intros ? body [= <-] Hbody.
  rewrite Hbody. cbn [nilable].
  destruct (decide (http.StatusCode resp ≠ http.StatusOK)) as [Hst|Hst].
  { mred. cbn. destruct (http.Close body w1) as [cerr w2]. cbn.
    split; [rewrite !sends_app; simpl; lia |].
    split; [eauto | intros; contradiction]. }
  assert (Hok : http.StatusCode resp = 200)
    by (destruct (decide (http.StatusCode resp = 200)); [assumption | contradiction]).
  mred. cbn.
  destruct (http.ReadAll body w1) as [[data err] w2]. cbn.
  destruct err as [e2|]; cbn.
  { destruct (http.Close body w2) as [cerr w3]. cbn.
    split; [rewrite !sends_app; simpl; lia |].
    split; [intros; contradiction | intros _].
    split; [eauto |]. split; intros; discriminate. }
  destruct (decide (strings_TrimSpace data = "")) as [Hua|Hua]; cbn;
    destruct (http.Close body w2) as [cerr w3]; cbn;
    (split; [rewrite !sends_app; simpl; lia |]);
    (split; [intros; contradiction | intros _]);
    (split; [intros; discriminate |]);
    (split; [intros; first [contradiction | eauto] |
             intros; first [contradiction | eauto]]).
Qed.

End GetUserAgent.

(** C7 on two networks: one that is down is not even asked when the
    config has a user agent; one that answers gives the trimmed body. *)
Lemma getUserAgent_spec_witness :
  @UserAgent.getUserAgent Toy.libs _ Toy.down 0%nat Toy.custom Toy.start
  = Done "Custom User Agent" Toy.start /\
  (exists s', @UserAgent.getUserAgent Toy.libs _
                (Toy.up (" Mozilla/5.0 Chrome/150.0.0.0 " +:+ Handlers.newline))
                0%nat Config.zero Toy.start
              = Done "Mozilla/5.0 Chrome/150.0.0.0" s').
Proof.
  split.
  - refine (proj1 (@getUserAgent_spec Toy.libs _ Toy.down 0%nat Toy.custom Toy.start) _).
    discriminate.
  - pose proof (proj2 (@getUserAgent_spec Toy.libs _
        (Toy.up (" Mozilla/5.0 Chrome/150.0.0.0 " +:+ Handlers.newline))
        0%nat Config.zero Toy.start) eq_refl) as [_ H].
    specialize (H _ eq_refl). cbv zeta in H. destruct H as [_ H].
    specialize (H _ _ eq_refl eq_refl). cbv zeta in H.
    destruct H as (_ & _ & H). specialize (H eq_refl).
    destruct H as (_ & _ & H). apply H; [reflexivity | vm_compute; discriminate].
Defined.

(** ** New (C9, C10) *)

Section New.
Context {L : Libs} {W : Type} {Wd : World W}.
Implicit Types (config : Config.t W) (s : State W) (c : Crawler.t W).

(** Expose the body of New, with the config it builds step by step
    written as [Spec.normalized config]. *)
Ltac open_New ctx config :=
  unfold Crawl.New; cbv zeta;
  match goal with
  | |- context [UserAgent.getUserAgent ctx ?cfg] =>
      let Hcfg := fresh "Hcfg" in
      assert (Hcfg : cfg = Spec.normalized config);
      [ unfold Spec.normalized; destruct config as [wc rb rh eh ua rp cl];
        cbn; destruct (Z.leb_spec wc 0), (decide (wc <= 0)); try lia;
        destruct rb, rh, eh, rp; reflexivity
      | rewrite Hcfg; clear Hcfg ]
  end.

(** The config that New stores, and what it passes to getUserAgent. *)
Lemma New_inv ctx config s c s' :
  Crawl.New ctx config s = Done c s' ->
  Crawler.config c = Spec.normalized config /\
  UserAgent.getUserAgent ctx (Spec.normalized config) s
  = Done (Crawler.userAgent c) s' /\
  Crawler.secChUa c = UserAgent.generateSecChUa (Crawler.userAgent c).
Proof.
  open_New ctx config. unfold mbind, M_bind, mret, M_ret.
  destruct (UserAgent.getUserAgent ctx (Spec.normalized config) s)
    as [ua s1|s1]; [| discriminate].
  intros [= <- <-]. cbn. auto.
Qed.

(** New leaves no callback nil, so that processURL can call them. *)
Lemma New_callbacks_set ctx config s c s' :
  Crawl.New ctx config s = Done c s' -> Spec.callbacks_set c.
Proof.
  intros H. apply New_inv in H as (Hcfg & _ & _).
  unfold Spec.callbacks_set. rewrite Hcfg. cbn. eauto.
Qed.

(** New returns whenever getUserAgent does; it does for an explicit user
    agent. *)
Lemma New_returns ctx config s :
  Config.UserAgent config ≠ "" ->
  exists c, Crawl.New ctx config s = Done c s.
Proof.
  intros Hua. open_New ctx config.
  eapply bind_Done_ex. apply getUserAgent_explicit. exact Hua.
Qed.

(** The client that New stores, field by field. *)
Lemma New_client ctx config s c s' :
  Crawl.New ctx config s = Done c s' ->
  let supplied := default http.zeroClient (Config.Client config) in
  http.CheckRedirect (Crawler.client c)
  = match http.CheckRedirect supplied with
    | Some f => Some f
    | None => Config.RedirectionPolicy (Crawler.config c)
    end /\
  http.Transport_ (Crawler.client c)
  = match http.Transport_ supplied with
    | http.RT_nil =>
        http.RT_Transport
          {| http.TLSClientConfig :=
               Some {| http.tls.InsecureSkipVerify := true;
                       http.tls.ServerName := "" |};
             http.MaxIdleConns := 0 |}
    | http.RT_Transport t => http.RT_Transport (Crawl.skip_verify t)
    | http.RT_other name => http.RT_other name
    end /\
  http.Timeout (Crawler.client c) = http.Timeout supplied.
Proof.
  open_New ctx config. unfold mbind, M_bind, mret, M_ret.
  destruct (UserAgent.getUserAgent ctx (Spec.normalized config) s)
    as [ua s1|s1]; [| discriminate].
  intros [= <- <-]. cbn [Crawler.client Crawler.config].
  unfold Spec.normalized. cbn [Config.Client Config.RedirectionPolicy].
  destruct (Config.Client config) as [[cr tr tmo]|]; cbn;
    try destruct cr; try destruct tr; cbn; auto.
Qed.

(** C10: New stores the config with its defaults filled in: a worker
    count that is zero or negative becomes 10, a nil RequestBuilder,
    ResponseHandler, ErrorHandler or RedirectionPolicy becomes
    DefaultRequestBuilder, DefaultResponseHandler, NoopErrorHandler or
    DefaultRedirectionPolicy(3); a positive worker count and the
    callbacks that are not nil are stored unchanged, and so are the
    other fields. *)
Theorem New_normalizes ctx config s c s' :
  Crawl.New ctx config s = Done c s' ->
  let stored := Crawler.config c in
  (Config.WorkerCount config <= 0 -> Config.WorkerCount stored = 10) /\
  (0 < Config.WorkerCount config ->
     Config.WorkerCount stored = Config.WorkerCount config) /\
  (Config.RequestBuilder config = None ->
     Config.RequestBuilder stored = Some Handlers.DefaultRequestBuilder) /\
  (Config.ResponseHandler config = None ->
     Config.ResponseHandler stored = Some Handlers.DefaultResponseHandler) /\
  (Config.ErrorHandler config = None ->
     Config.ErrorHandler stored = Some Handlers.NoopErrorHandler) /\
  (Config.RedirectionPolicy config = None ->
     Config.RedirectionPolicy stored
     = Some (Handlers.DefaultRedirectionPolicy Crawl.defaultMaxRedirects)) /\
  (forall f, Config.RequestBuilder config = Some f ->
     Config.RequestBuilder stored = Some f) /\
  (forall f, Config.ResponseHandler config = Some f ->
     Config.ResponseHandler stored = Some f) /\
  (forall f, Config.ErrorHandler config = Some f ->
     Config.ErrorHandler stored = Some f) /\
  (forall f, Config.RedirectionPolicy config = Some f ->
     Config.RedirectionPolicy stored = Some f) /\
  Config.UserAgent stored = Config.UserAgent config /\
  Config.Client stored = Config.Client config /\
  Crawl.defaultMaxRedirects = 3.
Proof.
  intros H. apply New_inv in H as (-> & _ & _). cbv zeta.
  unfold Spec.normalized. cbn.
  destruct (decide (Config.WorkerCount config <= 0)).
  - repeat (split; [first [intros ? ->; reflexivity | intros ->; reflexivity
                          | intros; first [reflexivity | lia]] |]).
    reflexivity.
  - repeat (split; [first [intros ? ->; reflexivity | intros ->; reflexivity
                          | intros; first [reflexivity | lia]] |]).
    reflexivity.
Qed.

(** C9, as amended: the client that New stores is a copy of the caller's
    client, or of an empty one.  Its redirect function is the resolved
    redirection policy when the caller's client has none, and the
    caller's own one otherwise; certificate verification is switched off
    when the transport is nil or an http.Transport, and a transport of
    another type is kept as it is.  In particular both hold when the
    caller supplied no client. *)
Theorem New_client_spec ctx config s c s' :
  Crawl.New ctx config s = Done c s' ->
  let supplied := default http.zeroClient (Config.Client config) in
  let stored := Crawler.client c in
  (http.CheckRedirect supplied = None ->
     http.CheckRedirect stored = Config.RedirectionPolicy (Crawler.config c)) /\
  (forall f, http.CheckRedirect supplied = Some f ->
     http.CheckRedirect stored = Some f) /\
  (http.Transport_ supplied = http.RT_nil -> Spec.tls_disabled stored) /\
  (forall t, http.Transport_ supplied = http.RT_Transport t ->
     Spec.tls_disabled stored /\
     exists t', http.Transport_ stored = http.RT_Transport t' /\
                http.MaxIdleConns t' = http.MaxIdleConns t) /\
  (forall name, http.Transport_ supplied = http.RT_other name ->
     http.Transport_ stored = http.RT_other name) /\
  (Config.Client config = None ->
     http.CheckRedirect stored = Config.RedirectionPolicy (Crawler.config c) /\
     Spec.tls_disabled stored).
Proof.
  intros H. apply New_client in H. cbv zeta in *.
  destruct H as (Hcr & Htr & _). unfold Spec.tls_disabled.
  rewrite Hcr, Htr. clear Hcr Htr.
  split; [intros ->; reflexivity |].
  split; [intros ? ->; reflexivity |].
  split; [intros ->; eauto |].
  split.
  { intros t ->. split; [| eauto].
    eexists _, _. split; [reflexivity |]. split; reflexivity. }
  split; [intros ? ->; reflexivity |].
  intros ->. cbn. split; [reflexivity | eauto].
Qed.

End New.

(** C10 on the empty config of the package's test. *)
Lemma New_normalizes_witness :
  exists c s',
    @Crawl.New Toy.libs _ Toy.down 0%nat Config.zero Toy.start = Done c s' /\
    Config.WorkerCount (Crawler.config c) = 10 /\
    Config.RequestBuilder (Crawler.config c)
    = Some (@Handlers.DefaultRequestBuilder Toy.libs _).
Proof.
  eexists _, _. split; [reflexivity |].
  pose proof (@New_normalizes Toy.libs _ Toy.down 0%nat Config.zero Toy.start
                _ _ eq_refl) as H.
  cbv zeta in H. destruct H as (H1 & _ & H3 & _).
  split; [apply H1; simpl; lia | apply H3; reflexivity].
Defined.

(** C9, as stated, fails for a client that has a CheckRedirect and a
    transport of its own: New keeps both. *)
Lemma New_client_counterexample :
  exists c s',
    @Crawl.New Toy.libs _ Toy.down 0%nat Toy.own_client Toy.start = Done c s' /\
    http.CheckRedirect (Crawler.client c)
    <> Config.RedirectionPolicy (Crawler.config c) /\
    ~ Spec.tls_disabled (Crawler.client c).
Proof.
  eexists _, _. split; [reflexivity |]. split.
  - cbn. intros [= Heq].
    apply (f_equal (fun f => f (Toy.req_for "example.com")
                               (replicate 5 (Toy.req_for "example.com")))) in Heq.
    vm_compute in Heq. discriminate.
  - intros (t & cfg & Ht & _). cbn in Ht. discriminate.
Qed.

Lemma New_client_spec_witness :
  exists c s',
    @Crawl.New Toy.libs _ Toy.down 0%nat Config.zero Toy.start = Done c s' /\
    http.CheckRedirect (Crawler.client c)
    = Some (Handlers.DefaultRedirectionPolicy 3) /\
    Spec.tls_disabled (Crawler.client c).
Proof.
  eexists _, _. split; [reflexivity |].
  pose proof (@New_client_spec Toy.libs _ Toy.down 0%nat Config.zero Toy.start
                _ _ eq_refl) as H.
  cbv zeta in H. destruct H as (H1 & _ & H3 & _).
  split; [apply H1; reflexivity | apply H3; reflexivity].
Defined.

(** ** The headers of processURL (C1) *)

Section Headers.
Context {W : Type}.
Implicit Types (h : http.Header) (c : Crawler.t W).

Local Abbreviation canon := http.CanonicalMIMEHeaderKey.
Local Abbreviation fill := (foldl (fun h kv => Crawl.setHeaderIfNotExists h kv.1 kv.2)).

Lemma setHeaderIfNotExists_lookup h key value :
  Crawl.setHeaderIfNotExists h key value !! canon key
  = if decide (http.Get h key = "") then Some [value] else h !! canon key.
Proof.
  unfold Crawl.setHeaderIfNotExists, http.Set_.
  destruct (decide (http.Get h key = "")); [apply lookup_insert_eq | reflexivity].
Qed.

Lemma setHeaderIfNotExists_other h key value k' :
  k' ≠ canon key ->
  Crawl.setHeaderIfNotExists h key value !! k' = h !! k'.
Proof.
  intros Hne. unfold Crawl.setHeaderIfNotExists, http.Set_.
  destruct (decide (http.Get h key = "")); [| reflexivity].
  apply lookup_insert_ne. congruence.
Qed.

Lemma fill_other (l : list (string * string)) h k' :
  k' ∉ map (fun kv => canon kv.1) l -> fill h l !! k' = h !! k'.
Proof.
  revert h. induction l as [|[k v] l IH]; intros h Hk'; [reflexivity |].
  cbn [foldl fst snd]. cbn [map fst] in Hk'. rewrite IH.
  - apply setHeaderIfNotExists_other. intros ->. apply Hk'. left.
  - intros Hin. apply Hk'. now right.
Qed.

Lemma fill_lookup (l : list (string * string)) h key value :
  NoDup (map (fun kv => canon kv.1) l) -> (key, value) ∈ l ->
  fill h l !! canon key
  = if decide (http.Get h key = "") then Some [value] else h !! canon key.
Proof.
  revert h. induction l as [|[k v] l IH]; intros h Hnd Hin.
  - now apply not_elem_of_nil in Hin.
  - cbn [map fst] in Hnd. apply NoDup_cons in Hnd as [Hk Hnd].
    cbn [foldl fst snd]. apply elem_of_cons in Hin as [[= -> ->]|Hin].
    + rewrite fill_other by exact Hk. apply setHeaderIfNotExists_lookup.
    + rewrite (IH _ Hnd Hin).
      assert (Hne : canon key ≠ canon k).
      { intros Heq. apply Hk. rewrite <- Heq.
        apply (list_elem_of_fmap_2 (fun kv => canon kv.1) l (key, value) Hin). }
      unfold http.Get. cbn [fst snd].
      rewrite !(setHeaderIfNotExists_other h k v (canon key) Hne). reflexivity.
Qed.

(** The names of the Chrome headers are canonical and differ from one
    another and from User-Agent. *)
Lemma chrome_header_names c :
  map fst (Crawl.chrome_headers c)
  = ["Accept"; "Accept-Language"; "Cache-Control"; "Pragma"; "Priority";
     "Referer"; "Sec-Ch-Ua"; "Sec-Ch-Ua-Mobile"; "Sec-Ch-Ua-Platform";
     "Sec-Fetch-Dest"; "Sec-Fetch-Mode"; "Sec-Fetch-Site"; "Sec-Fetch-User";
     "Upgrade-Insecure-Requests"].
Proof. reflexivity. Qed.

Lemma chrome_header_canon c :
  map (fun kv => canon kv.1) (Crawl.chrome_headers c)
  = map fst (Crawl.chrome_headers c).
Proof. vm_compute. reflexivity. Qed.

Lemma chrome_header_NoDup c :
  NoDup ("User-Agent" :: map fst (Crawl.chrome_headers c)).
Proof.
  rewrite chrome_header_names.
  apply (bool_decide_unpack _). vm_compute. reflexivity.
Qed.

Lemma chrome_header_key c key value :
  (key, value) ∈ Crawl.chrome_headers c ->
  canon key = key /\ key ≠ "User-Agent".
Proof.
  intros Hin.
  assert (Hk : key ∈ map fst (Crawl.chrome_headers c))
    by apply (list_elem_of_fmap_2 fst _ _ Hin).
  pose proof (chrome_header_NoDup c) as Hnd.
  apply NoDup_cons in Hnd as [Hua _].
  split; [| intros ->; contradiction].
  rewrite chrome_header_names in Hk.
  repeat (apply elem_of_cons in Hk as [->|Hk]; [vm_compute; reflexivity |]).
  now apply not_elem_of_nil in Hk.
Qed.

Lemma inject_headers_user_agent c h :
  Crawl.inject_headers c h !! "User-Agent" = Some [Crawler.userAgent c].
Proof.
  unfold Crawl.inject_headers. rewrite fill_other.
  - unfold http.Set_. change (canon "User-Agent") with "User-Agent".
    now rewrite lookup_insert_eq.
  - rewrite chrome_header_canon.
    pose proof (chrome_header_NoDup c) as Hnd.
    now apply NoDup_cons in Hnd as [Hua _].
Qed.

Lemma inject_headers_chrome c h key value :
  (key, value) ∈ Crawl.chrome_headers c ->
  Crawl.inject_headers c h !! key
  = if decide (http.Get h key = "") then Some [value] else h !! key.
Proof.
  intros Hin. destruct (chrome_header_key c key value Hin) as [Hcanon Hne].
  unfold Crawl.inject_headers.
  pose proof (fill_lookup (Crawl.chrome_headers c)
                (http.Set_ h "User-Agent" (Crawler.userAgent c)) key value) as H.
  rewrite Hcanon in H. rewrite H; [| | exact Hin].
  - unfold http.Get, http.Set_. rewrite Hcanon.
    rewrite !lookup_insert_ne by (change (canon "User-Agent") with "User-Agent"; congruence).
    reflexivity.
  - rewrite chrome_header_canon.
    pose proof (chrome_header_NoDup c) as Hnd.
    now apply NoDup_cons in Hnd as [_ Hnd].
Qed.

Lemma inject_headers_other c h key :
  key ∉ "User-Agent" :: map fst (Crawl.chrome_headers c) ->
  Crawl.inject_headers c h !! key = h !! key.
Proof.
  intros Hk. unfold Crawl.inject_headers. rewrite fill_other.
  - unfold http.Set_. apply lookup_insert_ne.
    change (canon "User-Agent") with "User-Agent".
    intros <-. apply Hk. left.
  - rewrite chrome_header_canon. intros Hin. apply Hk. now right.
Qed.

End Headers.

(** ** processURL (C1, C2) *)

Section ProcessURL.
Context {L : Libs} {W : Type} {Wd : World W}.
Implicit Types (c : Crawler.t W) (s : State W).

(** Case analysis on everything the rest of a computation branches on. *)
Ltac branches :=
  repeat match goal with
         | |- context [match ?x with _ => _ end] =>
             lazymatch x with
             | context [match _ with _ => _ end] => fail
             | _ => destruct x eqn:?; cbn
             end
         end.

#[local] Arguments Crawl.inject_headers : simpl never.

(** Bring a trace to the form [t ++ [e1; ...; en]]. *)
Ltac norm_trace := cbn; repeat rewrite <- app_assoc; cbn.

(** C1: when the request builder returns a request, the request that
    processURL sends is that request with other headers: User-Agent is
    the user agent of the crawler, whatever the builder set; each of the
    14 Chrome headers has its default value if the builder left it empty
    and the builder's values otherwise (Sec-Ch-Ua has the client-hint
    string of the crawler as its default); no other header is touched. *)
Theorem processURL_headers c ctx url s build req w1 :
  Config.RequestBuilder (Crawler.config c) = Some build ->
  build ctx url (world s) = (Ok req, w1) ->
  let sent := http.with_header (Crawl.inject_headers c (http.Hdr req)) req in
  (exists rest,
     trace (Spec.final (Crawl.processURL c ctx url s))
     = trace s ++ [EvBuild url; EvSend (Crawler.client c) sent] ++ rest) /\
  http.Hdr sent !! "User-Agent" = Some [Crawler.userAgent c] /\
  map fst (Crawl.chrome_headers c)
  = ["Accept"; "Accept-Language"; "Cache-Control"; "Pragma"; "Priority";
     "Referer"; "Sec-Ch-Ua"; "Sec-Ch-Ua-Mobile"; "Sec-Ch-Ua-Platform";
     "Sec-Fetch-Dest"; "Sec-Fetch-Mode"; "Sec-Fetch-Site"; "Sec-Fetch-User";
     "Upgrade-Insecure-Requests"] /\
  ("Sec-Ch-Ua", Crawler.secChUa c) ∈ Crawl.chrome_headers c /\
  (forall key value, (key, value) ∈ Crawl.chrome_headers c ->
     (http.Get (http.Hdr req) key = "" -> http.Hdr sent !! key = Some [value]) /\
     (http.Get (http.Hdr req) key ≠ "" ->
        http.Hdr sent !! key = http.Hdr req !! key)) /\
  (forall key, key ∉ "User-Agent" :: map fst (Crawl.chrome_headers c) ->
     http.Hdr sent !! key = http.Hdr req !! key).
Proof.
  intros Hb Hreq sent. split; [| split; [| split; [| split; [| split]]]].
  - unfold Crawl.processURL, Crawl.report. rewrite Hb. mred. cbn.
    rewrite Hreq. cbn. fold sent.
    branches; norm_trace; eexists; reflexivity.
  - apply inject_headers_user_agent.
  - reflexivity.
  - unfold Crawl.chrome_headers. do 6 apply list_elem_of_further.
    apply list_elem_of_here.
  - intros key value Hin. cbn [sent http.with_header http.Hdr].
    rewrite (inject_headers_chrome c _ key value Hin).
    destruct (decide (http.Get (http.Hdr req) key = "")); split; intros;
      first [reflexivity | contradiction].
  - intros key Hk. apply inject_headers_other. exact Hk.
Qed.

(** With callbacks that are not nil, processURL returns, whatever fails. *)
Lemma processURL_returns c ctx url s :
  Spec.callbacks_set c ->
  exists s', Crawl.processURL c ctx url s = Done tt s' /\
             Spec.builds (trace s') = Spec.builds (trace s) ++ [url].
Proof.
  intros ([build Hb] & [handle Hh] & [on_error He]).
  unfold Crawl.processURL, Crawl.report. rewrite Hb, Hh, He. mred. cbn.
  branches; eexists; (split; [reflexivity |]); cbn;
    rewrite !builds_app; cbn; rewrite ?app_nil_r; reflexivity.
Qed.

Lemma worker_on_returns c ctx urls s :
  Spec.callbacks_set c ->
  exists s', Crawl.worker_on c ctx urls s = Done tt s' /\
             Spec.builds (trace s') = Spec.builds (trace s) ++ urls.
Proof.
  intros Hc. revert s. induction urls as [|url urls IH]; intros s.
  - exists s. split; [reflexivity | now rewrite app_nil_r].
  - destruct (processURL_returns c ctx url s Hc) as (s1 & Hrun & Hb1).
    destruct (IH s1) as (s2 & Hrest & Hb2).
    exists s2. cbn [Crawl.worker_on].
    rewrite (bind_Done _ _ _ _ _ Hrun). split; [exact Hrest |].
    rewrite Hb2, Hb1, <- app_assoc. reflexivity.
Qed.

(** C2: with the three callbacks set, as New leaves them, processURL
    always returns, and
    - when the request builder fails, the error handler gets the URL and
      the error of the builder, and nothing else happens: no request is
      sent;
    - when the send fails, the error handler gets the URL and the error
      of the transport, and the response handler is not called;
    - when the response handler returns an error, the error handler gets
      the URL and that error;
    - when closing the body fails, the error handler gets the URL and
      that error, after the response handler has run;
    and the loop of the worker goes on after each of them: it calls the
    request builder for every URL it receives. *)
Theorem processURL_failures c ctx build handle on_error url s :
  Config.RequestBuilder (Crawler.config c) = Some build ->
  Config.ResponseHandler (Crawler.config c) = Some handle ->
  Config.ErrorHandler (Crawler.config c) = Some on_error ->
  let run := Crawl.processURL c ctx url s in
  let built := build ctx url (world s) in
  (forall e, built.1 = Err e ->
     run = Done tt {| world := on_error url e built.2;
                      trace := trace s ++ [EvBuild url; EvError url e] |}) /\
  (forall req, built.1 = Ok req ->
     let sent := http.with_header (Crawl.inject_headers c (http.Hdr req)) req in
     let answer := http_Client_Do (Crawler.client c) sent built.2 in
     let t2 := trace s ++ [EvBuild url; EvSend (Crawler.client c) sent] in
     (forall e, answer.1 = Err e ->
        run = Done tt {| world := on_error url e answer.2;
                         trace := t2 ++ [EvError url e] |}) /\
     (forall resp, answer.1 = Ok resp ->
        let handled := handle url resp answer.2 in
        let w3 := match handled.1 with
                  | Some e => on_error url e handled.2
                  | None => handled.2
                  end in
        (forall e, handled.1 = Some e ->
           exists s' rest,
             run = Done tt s' /\
             trace s' = t2 ++ [EvHandle url resp; EvError url e] ++ rest) /\
        (forall body e, http.Body resp = Some body ->
           (http.Close body w3).1 = Some e ->
           exists s' t,
             run = Done tt s' /\
             world s' = on_error url e (http.Close body w3).2 /\
             trace s' = t2 ++ [EvHandle url resp] ++ t ++ [EvClose; EvError url e]))) /\
  (forall urls s0,
     exists s', Crawl.worker_on c ctx urls s0 = Done tt s' /\
                Spec.builds (trace s') = Spec.builds (trace s0) ++ urls).
Proof.
  intros Hb Hh He. cbv zeta.
  split; [| split].
  - intros e Hbuilt. unfold Crawl.processURL, Crawl.report.
    rewrite Hb, He. mred. cbn.
    destruct (build ctx url (world s)) as [r w1]. cbn in *. subst r.
    norm_trace. reflexivity.
  - intros req Hbuilt. unfold Crawl.processURL, Crawl.report.
    rewrite Hb, Hh, He. mred. cbn.
    destruct (build ctx url (world s)) as [r w1]. cbn in *. subst r. cbn.
    destruct (http_Client_Do (Crawler.client c)
                (http.with_header (Crawl.inject_headers c (http.Hdr req)) req) w1)
      as [r2 w2]. cbn.
    split.
    + intros e ->. norm_trace. reflexivity.
    + intros resp ->. cbn. destruct (handle url resp w2) as [herr w3]. cbn. split.
      * intros e ->. cbn. branches; eexists _, _; (split; [reflexivity |]);
          norm_trace; reflexivity.
      * intros body e Hbody Hclose. rewrite Hbody.
        destruct herr as [e3|]; cbn in *.
        -- destruct (http.Close body (on_error url e3 w3)) as [cerr w4].
           cbn in *. subst cerr.
           eexists _, [EvError url e3].
           split; [reflexivity |]. split; [reflexivity |].
           norm_trace. reflexivity.
        -- destruct (http.Close body w3) as [cerr w4].
           cbn in *. subst cerr.
           eexists _, [].
           split; [reflexivity |]. split; [reflexivity |].
           norm_trace. reflexivity.
  - intros urls s0. apply worker_on_returns.
    unfold Spec.callbacks_set. rewrite Hb, Hh, He. eauto.
Qed.

End ProcessURL.

(** C1 on a builder that sets Accept and User-Agent: the request that
    goes out has the crawler's User-Agent, the builder's Accept and the
    default Pragma. *)
Lemma processURL_headers_witness :
  let c := Toy.crawler Toy.json_builder (@Handlers.DefaultResponseHandler _ (Toy.up "OK")) in
  let url := "https://example.com/api" in
  let sent := http.with_header
                (Crawl.inject_headers c (http.Hdr (Toy.json_request url)))
                (Toy.json_request url) in
  http.Hdr sent !! "User-Agent" = Some ["Custom User Agent"] /\
  http.Hdr sent !! "Accept" = Some ["application/json"] /\
  http.Hdr sent !! "Pragma" = Some ["no-cache"].
Proof.
  cbv zeta.
  pose proof (@processURL_headers _ (Toy.up "OK")
                (Toy.crawler Toy.json_builder
                   (@Handlers.DefaultResponseHandler _ (Toy.up "OK")))
                0%nat "https://example.com/api" Toy.start
                Toy.json_builder (Toy.json_request "https://example.com/api") []
                eq_refl eq_refl) as H.
  cbv zeta in H. destruct H as (_ & Hua & _ & _ & Hchrome & _).
  split; [exact Hua |]. split.
  - rewrite (proj2 (Hchrome "Accept" _ ltac:(apply list_elem_of_here)));
      [reflexivity | vm_compute; discriminate].
  - apply (proj1 (Hchrome "Pragma" "no-cache"
                    ltac:(do 3 apply list_elem_of_further; apply list_elem_of_here))).
    vm_compute. reflexivity.
Defined.

(** C2 on a host that does not exist: the error handler gets the URL and
    the error of the transport, the response handler is not called, and
    processURL returns. *)
Lemma processURL_failures_witness :
  let c := Toy.crawler (@Handlers.DefaultRequestBuilder Toy.libs _) Toy.failing_handler in
  let url := "http://invalid-domain-that-does-not-exist-12345.com" in
  exists sent,
    @Crawl.processURL _ Toy.down c 0%nat url Toy.start
    = Done tt {| world := ["ERROR: " +:+ url];
                 trace := [EvBuild url; EvSend http.zeroClient sent;
                           EvError url (OtherError "dial tcp: no such host")] |}.
Proof.
  cbv zeta. eexists.
  pose proof (@processURL_failures _ Toy.down
                (Toy.crawler (@Handlers.DefaultRequestBuilder Toy.libs _)
                   Toy.failing_handler)
                0%nat (@Handlers.DefaultRequestBuilder Toy.libs _)
                Toy.failing_handler
                Toy.log_errors
                "http://invalid-domain-that-does-not-exist-12345.com" Toy.start
                eq_refl eq_refl eq_refl) as H.
  cbv zeta in H. destruct H as (_ & H & _).
  specialize (H _ eq_refl). cbv zeta in H. destruct H as (H & _).
  exact (H _ eq_refl).
Defined.

(** ** Run (C8) *)

Lemma live_app (ws ws' : list Run.wstate) :
  Run.live (ws ++ ws') = (Run.live ws + Run.live ws')%nat.
Proof. unfold Run.live. now rewrite filter_app, length_app. Qed.

Lemma live_insert (ws : list Run.wstate) (k : nat) (w w' : Run.wstate) :
  ws !! k = Some w ->
  (Run.live (<[k := w']> ws) + (if decide (w ≠ Run.WReturned) then 1 else 0)
   = Run.live ws + (if decide (w' ≠ Run.WReturned) then 1 else 0))%nat.
Proof.
  unfold Run.live. revert k. induction ws as [|a ws IH]; intros k Hk.
  - discriminate.
  - destruct k as [|k]; cbn in Hk.
    + injection Hk as ->. change (<[0%nat := w']> (w :: ws)) with (w' :: ws).
      rewrite !filter_cons.
      repeat case_decide; cbn; lia.
    + specialize (IH k Hk).
      change (<[S k := w']> (a :: ws)) with (a :: <[k := w']> ws).
      rewrite !filter_cons.
      repeat case_decide; cbn; try contradiction; lia.
Qed.

Lemma live_zero (ws : list Run.wstate) :
  Run.live ws = 0%nat -> Forall (fun w => w = Run.WReturned) ws.
Proof.
  unfold Run.live. induction ws as [|a ws IH]; intros H; [constructor |].
  rewrite filter_cons in H. destruct (decide (a ≠ Run.WReturned)) as [Hne|Heq].
  - discriminate.
  - constructor; [| now apply IH].
    destruct (decide (a = Run.WReturned)); [assumption | contradiction].
Qed.

Section RunProps.
Context {L : Libs} {W : Type} {Wd : World W}.
Variable c : Crawler.t W.
Variable ctx : Context.
Variable urlGen : nat -> option string.

Local Abbreviation step := (Run.step c ctx urlGen).
Local Abbreviation exec := (Run.exec c ctx urlGen).
Local Abbreviation reachable := (Run.reachable c ctx urlGen).
Local Abbreviation returns := (Run.returns c ctx urlGen).
Local Abbreviation WorkerCount := (Run.WorkerCount c).

(** What holds in every state of a run. *)
Record Inv (s : Run.state W) : Prop := {
  (* the WaitGroup counts the workers that have not returned *)
  inv_wg : Run.wg s = Z.of_nat (Run.live (Run.workers s));
  (* a [<-ctx.Done()] case is only taken once the context is cancelled *)
  inv_observed : Run.observed s = true -> is_Some (Run.ctx_err s);
  (* Run has returned: every worker has returned before *)
  inv_returned : forall r, Run.main s = Run.MReturned r ->
    Forall (fun w => w = Run.WReturned) (Run.workers s);
  (* the error that Run returned is the error of the context *)
  inv_error : forall e, Run.main s = Run.MReturned (Some e) ->
    Run.ctx_err s = Some e;
  (* the loop of Run starts WorkerCount workers *)
  inv_spawn :
    match Run.main s with
    | Run.MStart => Run.workers s = []
    | Run.MSpawn i =>
        0 <= i /\ length (Run.workers s) = Z.to_nat i /\
        (i <= WorkerCount \/ i = 0)
    | Run.MWait | Run.MReturned _ =>
        length (Run.workers s) = Z.to_nat WorkerCount
    | Run.MCrashed => True
    end;
  (* the dispatcher is started after the workers *)
  inv_disp :
    match Run.main s with
    | Run.MStart | Run.MSpawn _ => Run.disp s = None
    | _ => True
    end;
}.

Ltac step_inv H :=
  unfold Run.step, Run.main_step, Run.disp_step, Run.worker_step, Run.send in H;
  repeat case_match; simplify_eq.

Lemma Inv_init e x : Inv (Run.init c e x).
Proof. constructor; cbn; try done. Qed.

Lemma Forall_returned_lookup (ws : list Run.wstate) (k : nat) (w : Run.wstate) :
  Forall (fun w => w = Run.WReturned) ws -> ws !! k = Some w -> w = Run.WReturned.
Proof. intros Hall Hk. exact (proj1 (Forall_lookup _ ws) Hall k w Hk). Qed.

#[local] Arguments Run.live : simpl never.

Lemma Inv_step l s s' : Inv s -> step l s = Some s' -> Inv s'.
Proof.
  intros [Hwg Hobs Hret Herr Hspawn Hdisp] Hstep.
  step_inv Hstep; constructor; cbn in *;
    repeat match goal with
           | H : Run.main _ = _ |- _ => rewrite H in *
           end;
    cbn in *;
    try done;
    try (intros; simplify_eq; eauto; fail);
    try (intros e0 He0; specialize (Herr e0 He0); congruence);
    try (match goal with
         | Hs : Run.workers _ = [], Hk : Run.workers _ !! _ = Some _ |- _ =>
             rewrite Hs in Hk; discriminate
         end);
    rewrite ?live_app, ?length_app, ?length_insert; cbn;
    try (rewrite ?Hspawn; cbn; lia).
  all: try match goal with
       | Hk : Run.workers _ !! ?k = Some ?w |- context [Run.live (<[?k := ?w']> _)] =>
           pose proof (live_insert _ k w w' Hk) as Hlive;
           repeat case_decide; try done; lia
       end.
  all: try (intros r Hr;
            match goal with
            | Hk : Run.workers _ !! _ = Some _ |- _ =>
                pose proof (Forall_returned_lookup _ _ _ (Hret r Hr) Hk); done
            end).
  all: try (intros r [= <-]; apply live_zero; lia).
  change (Run.live [Run.WSelect]) with 1%nat. lia.
Qed.

Lemma Inv_reachable e x s : reachable e x s -> Inv s.
Proof.
  induction 1 as [|l s s' _ IH Hstep]; [apply Inv_init | exact (Inv_step _ _ _ IH Hstep)].
Qed.

Lemma exec_reachable e x ls s s' :
  reachable e x s -> exec ls s = Some s' -> reachable e x s'.
Proof.
  revert s. induction ls as [|l ls IH]; intros s Hs Hexec; cbn in Hexec.
  - now injection Hexec as <-.
  - destruct (step l s) as [s1|] eqn:Hstep; [| discriminate].
    apply (IH s1); [| exact Hexec]. econstructor; eassumption.
Qed.

(** Once the dispatcher has returned, nothing is put into the channel. *)
Lemma step_after_dispatcher l s s' :
  Inv s -> Run.disp s = Some Run.DReturned -> step l s = Some s' ->
  Run.disp s' = Some Run.DReturned /\ Run.sent s' = Run.sent s.
Proof.
  intros Hinv Hd Hstep. pose proof (inv_disp _ Hinv) as Hdisp.
  step_inv Hstep; cbn in *;
    repeat match goal with
           | H : Run.main _ = _ |- _ => rewrite H in *
           end;
    try congruence; split; congruence.
Qed.

Lemma exec_after_dispatcher ls s s' :
  Inv s -> Run.disp s = Some Run.DReturned -> exec ls s = Some s' ->
  Run.sent s' = Run.sent s.
Proof.
  revert s. induction ls as [|l ls IH]; intros s Hinv Hd Hexec; cbn in Hexec.
  - now injection Hexec as <-.
  - destruct (step l s) as [s1|] eqn:Hstep; [| discriminate].
    destruct (step_after_dispatcher _ _ _ Hinv Hd Hstep) as [Hd1 Hs1].
    rewrite <- Hs1. apply IH; [exact (Inv_step _ _ _ Hinv Hstep) | assumption ..].
Qed.

(** The dispatcher takes the Done case: the URL it holds is dropped and
    the channel is closed. *)
Lemma dispatcher_observes i url s s' :
  Run.disp s = Some (Run.DSelect i url) ->
  step (Run.LDispatch Run.OnDone) s = Some s' ->
  Run.disp s' = Some Run.DReturned /\ Run.sent s' = Run.sent s /\
  Run.closed (Run.urlChan s') = true /\ is_Some (Run.ctx_err s).
Proof.
  intros Hd Hstep. step_inv Hstep; cbn in *; try done; try congruence.
  all: repeat split; eauto.
Qed.

(** C8, as amended: when Run returns, every worker it started has
    returned, and the value is the error of the context at that moment:
    the cancellation error if the context is cancelled by then, which it
    is whenever the dispatcher or a worker has taken a Done case (the run
    was stopped early); nil if the context is not cancelled, and then
    nobody has taken a Done case.  The dispatcher that takes the Done
    case drops the URL it holds and closes the channel, and once it has
    returned no URL is put into the channel. *)
Theorem Run_returns e0 x s r s' :
  reachable e0 x s -> returns s r s' ->
  r = Run.ctx_err s /\
  (Run.observed s = true -> exists e, r = Some e) /\
  (Run.ctx_err s = None -> r = None /\ Run.observed s = false) /\
  Forall (fun w => w = Run.WReturned) (Run.workers s') /\
  length (Run.workers s') = Z.to_nat WorkerCount /\
  (forall t i url t',
     reachable e0 x t -> Run.disp t = Some (Run.DSelect i url) ->
     step (Run.LDispatch Run.OnDone) t = Some t' ->
     Run.disp t' = Some Run.DReturned /\ Run.sent t' = Run.sent t /\
     Run.closed (Run.urlChan t') = true) /\
  (forall t ls t',
     reachable e0 x t -> Run.disp t = Some Run.DReturned ->
     exec ls t = Some t' -> Run.sent t' = Run.sent t).
Proof.
  intros Hreach (Hwait & Hstep & Hmain).
  pose proof (Inv_reachable _ _ _ Hreach) as Hinv.
  assert (Hinv' : Inv s') by exact (Inv_step _ _ _ Hinv Hstep).
  assert (Hr : r = Run.ctx_err s).
  { unfold Run.step, Run.main_step in Hstep. rewrite Hwait in Hstep.
    destruct (Run.wg s =? 0); [| discriminate].
    injection Hstep as <-. cbn in Hmain. congruence. }
  split; [exact Hr |]. split; [| split; [| split; [| split; [| split]]]].
  - intros Hobs. destruct (inv_observed _ Hinv Hobs) as [e He].
    exists e. congruence.
  - intros Hnone. split; [congruence |].
    destruct (Run.observed s) eqn:Hobs; [| reflexivity].
    destruct (inv_observed _ Hinv Hobs) as [e He]. congruence.
  - exact (inv_returned _ Hinv' _ Hmain).
  - pose proof (inv_spawn _ Hinv') as Hsp. now rewrite Hmain in Hsp.
  - intros t i url t' _ Hd Ht.
    destruct (dispatcher_observes _ _ _ _ Hd Ht) as (? & ? & ? & _). auto.
  - intros t ls t' Ht Hd Hexec.
    exact (exec_after_dispatcher _ _ _ (Inv_reachable _ _ _ Ht) Hd Hexec).
Qed.

(** *** Run can return once the context is cancelled *)






End RunProps.

(** Prove a conjunction of closed equations by evaluation. *)
Ltac by_eval :=
  repeat match goal with
         | |- _ /\ _ => split
         | |- Run.returns _ _ _ _ _ _ => unfold Run.returns
         end;
  vm_compute; reflexivity.

(** C8, as stated, fails: here every URL of the generator is sent and
    processed and no goroutine takes a Done case, so the run is not
    stopped early; the caller cancels before Run reads [ctx.Err()], and
    Run returns the cancellation error. *)
Lemma Run_returns_counterexample :
  let url := "https://example.com" in
  let s := Toy.after [url] Toy.schedule_done_then_cancel in
  @Run.exec _ Toy.net Toy.c2 0%nat (Toy.gen [url])
    Toy.schedule_done_then_cancel (Run.init Toy.c2 None Toy.start) = Some s /\
  @Run.returns _ Toy.net Toy.c2 0%nat (Toy.gen [url]) s (Some ContextCanceled)
    (Run.set_main (Run.MReturned (Some ContextCanceled)) s) /\
  Run.observed s = false /\
  Run.sent s = [url] /\
  Spec.builds (trace (Run.st s)) = [url] /\
  length (world (Run.st s)) = 1%nat.
Proof. cbv zeta. by_eval. Qed.

(** The same run without the cancellation: Run returns nil after the URL
    has been sent and processed. *)
Example Run_returns_nil :
  let url := "https://example.com" in
  let schedule := take 11 Toy.schedule_done_then_cancel in
  let s := Toy.after [url] schedule in
  @Run.exec _ Toy.net Toy.c2 0%nat (Toy.gen [url]) schedule
    (Run.init Toy.c2 None Toy.start) = Some s /\
  @Run.returns _ Toy.net Toy.c2 0%nat (Toy.gen [url]) s None
    (Run.set_main (Run.MReturned None) s) /\
  Run.sent s = [url] /\
  Spec.builds (trace (Run.st s)) = [url] /\
  world (Run.st s) = ["https://example.com -> 200 200 OK" +:+ Handlers.newline].
Proof. cbv zeta. by_eval. Qed.

(** C8 on a run that is stopped early. *)
Lemma Run_returns_witness :
  let url := "https://example.com" in
  let s := Toy.after [url] Toy.schedule_cancel_early in
  let s' := Run.set_main (Run.MReturned (Some ContextCanceled)) s in
  @Run.exec _ Toy.net Toy.c2 0%nat (Toy.gen [url])
    Toy.schedule_cancel_early (Run.init Toy.c2 None Toy.start) = Some s /\
  @Run.returns _ Toy.net Toy.c2 0%nat (Toy.gen [url]) s (Some ContextCanceled) s' /\
  Run.observed s = true /\
  Run.sent s = [] /\
  Forall (fun w => w = Run.WReturned) (Run.workers s').
Proof.
  cbv zeta.
  match goal with
  | |- ?E /\ ?R /\ _ =>
      assert (He : E) by (vm_compute; reflexivity);
      assert (Hr : R) by by_eval
  end.
  split; [exact He |]. split; [exact Hr |].
  split; [vm_compute; reflexivity |]. split; [vm_compute; reflexivity |].
  refine (proj1 (proj2 (proj2 (proj2
    (@Run_returns _ Toy.net _ 0%nat (Toy.gen ["https://example.com"])
       None Toy.start _ _ _
       (exec_reachable _ _ _ _ _ _ _ _ (Run.reach_init _ _ _ _ _) He) Hr))))).
Defined.

(** * Further properties *)

(** ** useragent.go *)

(** X1: the version that extractChromeVersion returns is never empty and
    consists of digits, whatever the user agent is. *)
Theorem extractChromeVersion_digits (ua : string) :
  UserAgent.extractChromeVersion ua ≠ "" /\
  all_digits (UserAgent.extractChromeVersion ua) = true.
Proof.
  unfold UserAgent.extractChromeVersion.
  pose proof (find_chrome_cases ua) as Hcases.
  destruct (Regexp.FindStringSubmatch UserAgent.chrome_re ua) as [|m caps].
  - split; [discriminate | reflexivity].
  - destruct Hcases as (v & -> & (pre & post & (_ & Hne & Hv) & _)). auto.
Qed.

(** The client-hint string is never empty. *)
Lemma generateSecChUa_nonempty (ua : string) : UserAgent.generateSecChUa ua ≠ "".
Proof.
  unfold UserAgent.generateSecChUa, UserAgent.sprintf_sec_ch_ua, dq.
  rewrite append_cons. discriminate.
Qed.

(** Case analysis on everything a computation branches on, innermost
    first. *)
Ltac cases :=
  repeat match goal with
         | |- context [match ?x with _ => _ end] =>
             lazymatch x with
             | context [match _ with _ => _ end] => fail
             | _ => destruct x eqn:?; cbn
             end
         end.

Ltac cases_in H :=
  repeat match type of H with
         | context [match ?x with _ => _ end] =>
             lazymatch x with
             | context [match _ with _ => _ end] => fail
             | _ => destruct x eqn:?; cbn in H
             end
         end.

Lemma count_app {W : Type} (kind : Event W -> bool) (t1 t2 : list (Event W)) :
  Trace.count kind (t1 ++ t2) = (Trace.count kind t1 + Trace.count kind t2)%nat.
Proof. unfold Trace.count. now rewrite filter_app, length_app. Qed.

Lemma count_nil {W : Type} (kind : Event W -> bool) : Trace.count kind [] = 0%nat.
Proof. reflexivity. Qed.

Lemma count_cons {W : Type} (kind : Event W -> bool) (ev : Event W) (t : list (Event W)) :
  Trace.count kind (ev :: t) = ((if kind ev then 1 else 0) + Trace.count kind t)%nat.
Proof.
  unfold Trace.count. rewrite filter_cons.
  destruct (kind ev); case_decide; try done; cbn; lia.
Qed.

(** Count the events of the traces in the goal. *)
Ltac counts := rewrite ?count_app, ?count_cons, ?count_nil; cbn; try lia.

Section FetchMore.
Context {L : Libs} {W : Type} {Wd : World W}.
Implicit Types (config : Config.t W) (s : State W).

(** What fetchUserAgent adds to the trace, by the answer of the API. *)
Lemma fetchUserAgent_trace ctx s ua s' :
  UserAgent.fetchUserAgent ctx s = Done ua s' ->
  ua ≠ "" /\
  match http_NewRequestWithContext ctx "GET" UserAgent.apiURL with
  | Err _ => s' = s
  | Ok req =>
      match (http_Client_Do http.DefaultClient req (world s)).1 with
      | Err _ => trace s' = trace s ++ [EvSend http.DefaultClient req]
      | Ok resp =>
          trace s' = trace s ++ [EvSend http.DefaultClient req] ++
                     (if decide (http.StatusCode resp = 200) then [EvReadAll] else []) ++
                     [EvClose]
      end
  end.
Proof.
  unfold UserAgent.fetchUserAgent.
  destruct (http_NewRequestWithContext ctx "GET" UserAgent.apiURL) as [req|e0].
  2: { intros [= <- <-]. split; [discriminate | reflexivity]. }
  unfold mbind, M_bind, mret, M_ret, call, nilable, panic. 
  destruct (http_Client_Do http.DefaultClient req (world s)) as [[resp|e1] w1]; cbn.
  2: { intros [= <- <-]. split; [discriminate | reflexivity]. }
  destruct (http.Body resp) as [body|]; [| discriminate].
  unfold http.StatusOK.
  destruct (decide (http.StatusCode resp ≠ 200)) as [Hst|Hst];
    destruct (decide (http.StatusCode resp = 200)); try contradiction; cbn.
  - destruct (http.Close body w1). intros [= <- <-]. cbn.
    rewrite <- app_assoc. split; [discriminate | reflexivity].
  - destruct (http.ReadAll body w1) as [[data err] w2]. cbn.
    destruct err as [e2|]; cbn.
    + destruct (http.Close body w2). intros [= <- <-]. cbn.
      rewrite <- !app_assoc. split; [discriminate | reflexivity].
    + destruct (decide (strings_TrimSpace data = "")); cbn;
        destruct (http.Close body w2); intros [= <- <-]; cbn;
        rewrite <- !app_assoc; (split; [first [discriminate | assumption] | reflexivity]).
Qed.

(** X2: the user agent that getUserAgent returns is never empty: it is
    the non-empty one of the config, the non-empty trimmed answer of the
    API, or the default. *)
Theorem getUserAgent_nonempty ctx config s ua s' :
  UserAgent.getUserAgent ctx config s = Done ua s' -> ua ≠ "".
Proof.
  unfold UserAgent.getUserAgent.
  destruct (decide (Config.UserAgent config ≠ "")) as [Hua|_].
  - now intros [= <- <-].
  - intros H. now apply fetchUserAgent_trace in H.
Qed.

(** X3: fetchUserAgent closes the body of every response it gets, once
    and as its last call, also when the status is not 200 or reading
    fails; it reads the body only when the status is 200; and when no
    response arrives it closes and reads nothing. *)
Theorem fetchUserAgent_closes ctx s ua s' :
  UserAgent.fetchUserAgent ctx s = Done ua s' ->
  let request := http_NewRequestWithContext ctx "GET" UserAgent.apiURL in
  (forall req resp, request = Ok req ->
     (http_Client_Do http.DefaultClient req (world s)).1 = Ok resp ->
     (exists t, trace s' = t ++ [EvClose] /\
                Trace.count Trace.is_close t = Trace.count Trace.is_close (trace s)) /\
     (http.StatusCode resp ≠ 200 ->
        Trace.count Trace.is_read (trace s') = Trace.count Trace.is_read (trace s)) /\
     (http.StatusCode resp = 200 ->
        Trace.count Trace.is_read (trace s') = S (Trace.count Trace.is_read (trace s)))) /\
  ((forall req resp, request = Ok req ->
      (http_Client_Do http.DefaultClient req (world s)).1 ≠ Ok resp) ->
   Trace.count Trace.is_close (trace s') = Trace.count Trace.is_close (trace s) /\
   Trace.count Trace.is_read (trace s') = Trace.count Trace.is_read (trace s)).
Proof.
  intros H. apply fetchUserAgent_trace in H as [_ H]. cbv zeta.
  destruct (http_NewRequestWithContext ctx "GET" UserAgent.apiURL) as [req|e0].
  2: { subst s'. split; [intros; discriminate | auto]. }
  destruct ((http_Client_Do http.DefaultClient req (world s)).1) as [resp|e1] eqn:Hdo.
  - split.
    + intros ? ? [= <-] Hresp. rewrite Hdo in Hresp. injection Hresp as <-. rewrite H.
      destruct (decide (http.StatusCode resp = 200)) as [Hst|Hst].
      * split; [| split; [intros; contradiction | intros _]].
        -- exists (trace s ++ [EvSend http.DefaultClient req; EvReadAll]).
           split; [now rewrite <- app_assoc |].
           counts.
        -- counts.
      * split; [| split; [intros _ | intros; contradiction]].
        -- exists (trace s ++ [EvSend http.DefaultClient req]).
           split; [now rewrite <- app_assoc |].
           counts.
        -- counts.
    + intros Hno. exfalso. apply (Hno req resp eq_refl). exact Hdo.
  - split.
    + intros ? ? [= <-] Hresp. rewrite Hdo in Hresp. discriminate.
    + intros _. rewrite H. split; counts.
Qed.

End FetchMore.

(** X2 on a network that is down. *)
Lemma getUserAgent_nonempty_witness :
  let run := @UserAgent.getUserAgent Toy.libs _ Toy.down 0%nat Config.zero Toy.start in
  run = Done UserAgent.defaultUserAgent (Spec.final run) /\
  UserAgent.defaultUserAgent ≠ "".
Proof.
  cbv zeta.
  assert (H : @UserAgent.getUserAgent Toy.libs _ Toy.down 0%nat Config.zero Toy.start
              = Done UserAgent.defaultUserAgent
                  (Spec.final (@UserAgent.getUserAgent Toy.libs _ Toy.down 0%nat
                                 Config.zero Toy.start)))
    by (vm_compute; reflexivity).
  split; [exact H |].
  exact (@getUserAgent_nonempty Toy.libs _ Toy.down _ _ _ _ _ H).
Defined.

(** X3 on a network that answers 200. *)
Lemma fetchUserAgent_closes_witness :
  let run := @UserAgent.fetchUserAgent Toy.libs _ (Toy.up "Mozilla/5.0 Chrome/150.0.0.0")
               0%nat Toy.start in
  run = Done "Mozilla/5.0 Chrome/150.0.0.0" (Spec.final run) /\
  exists t, trace (Spec.final run) = t ++ [EvClose] /\
            Trace.count Trace.is_close t = 0%nat.
Proof.
  cbv zeta.
  assert (H : @UserAgent.fetchUserAgent Toy.libs _ (Toy.up "Mozilla/5.0 Chrome/150.0.0.0")
                0%nat Toy.start
              = Done "Mozilla/5.0 Chrome/150.0.0.0"
                  (Spec.final (@UserAgent.fetchUserAgent Toy.libs _
                     (Toy.up "Mozilla/5.0 Chrome/150.0.0.0") 0%nat Toy.start)))
    by (vm_compute; reflexivity).
  split; [exact H |].
  pose proof (@fetchUserAgent_closes Toy.libs _ _ _ _ _ _ H) as Hc.
  cbv zeta in Hc. destruct Hc as [Hc _].
  destruct (Hc _ (Toy.ok_response "Mozilla/5.0 Chrome/150.0.0.0") eq_refl eq_refl)
    as [Hclose _].
  exact Hclose.
Defined.

(** ** crawler.go: New *)

Section NewMore.
Context {L : Libs} {W : Type} {Wd : World W}.
Implicit Types (config : Config.t W) (s : State W) (c : Crawler.t W).

(** The user agent and the client-hint string of the crawler New returns. *)
Lemma New_ua ctx config s c s' :
  Crawl.New ctx config s = Done c s' ->
  Crawler.userAgent c ≠ "" /\
  (Config.UserAgent config ≠ "" -> Crawler.userAgent c = Config.UserAgent config) /\
  Crawler.secChUa c = UserAgent.generateSecChUa (Crawler.userAgent c).
Proof.
  intros H. apply New_inv in H as (_ & Hua & Hsec).
  split; [| split; [| exact Hsec]].
  - unfold UserAgent.getUserAgent in Hua.
    destruct (decide (Config.UserAgent (Spec.normalized config) ≠ "")) as [Hne|_].
    + now injection Hua as <- _.
    + now apply fetchUserAgent_trace in Hua.
  - intros Hne. rewrite getUserAgent_explicit in Hua by exact Hne.
    now injection Hua as <- _.
Qed.

(** X4: the crawler that New returns has a user agent that is not empty
    (the one of the config when that is not empty), and its client-hint
    string is the one derived from that user agent, not empty either. *)
Theorem New_identity ctx config s c s' :
  Crawl.New ctx config s = Done c s' ->
  Crawler.userAgent c ≠ "" /\
  (Config.UserAgent config ≠ "" -> Crawler.userAgent c = Config.UserAgent config) /\
  Crawler.secChUa c = UserAgent.generateSecChUa (Crawler.userAgent c) /\
  Crawler.secChUa c ≠ "".
Proof.
  intros H. destruct (New_ua _ _ _ _ _ H) as (Hne & Hcfg & Hsec).
  split; [exact Hne |]. split; [exact Hcfg |]. split; [exact Hsec |].
  rewrite Hsec. apply generateSecChUa_nonempty.
Qed.

(** X5: New sends at most one request, the one for the user agent, and
    none when the config has a user agent: then it leaves the world and
    the trace as they are.  It never calls a callback of the config. *)
Theorem New_sends ctx config s c s' :
  Crawl.New ctx config s = Done c s' ->
  (Config.UserAgent config ≠ "" -> s' = s) /\
  (Trace.count Trace.is_send (trace s') <= S (Trace.count Trace.is_send (trace s)))%nat /\
  Trace.count Trace.is_build (trace s') = Trace.count Trace.is_build (trace s) /\
  Trace.count Trace.is_handle (trace s') = Trace.count Trace.is_handle (trace s) /\
  Trace.count Trace.is_error (trace s') = Trace.count Trace.is_error (trace s).
Proof.
  intros H. apply New_inv in H as (_ & Hua & _).
  destruct (decide (Config.UserAgent config ≠ "")) as [Hne|He].
  - rewrite getUserAgent_explicit in Hua by exact Hne.
    injection Hua as _ <-. repeat split; auto.
  - split; [intros; contradiction |].
    rewrite getUserAgent_fetch in Hua
      by (cbn; destruct (decide (Config.UserAgent config = "")); [assumption | contradiction]).
    apply fetchUserAgent_trace in Hua as [_ Hua].
    destruct (http_NewRequestWithContext ctx "GET" UserAgent.apiURL) as [req|e0];
      [| subst s'; repeat split; lia].
    destruct ((http_Client_Do http.DefaultClient req (world s)).1);
      rewrite Hua; [destruct (decide (http.StatusCode a = 200)) |];
      repeat split; counts.
Qed.

(** X6: New on the config of a crawler that New built stores the same
    config and the same client again: filling in the defaults twice
    changes nothing.  With a user agent in the config it builds the same
    crawler. *)
Theorem New_again ctx config s c s' ctx2 s2 c2 s2' :
  Crawl.New ctx config s = Done c s' ->
  Crawl.New ctx2 (Crawler.config c) s2 = Done c2 s2' ->
  Crawler.config c2 = Crawler.config c /\
  Crawler.client c2 = Crawler.client c /\
  (Config.UserAgent config ≠ "" -> c2 = c).
Proof.
  intros H1 H2.
  pose proof (New_client _ _ _ _ _ H1) as Hcl1.
  pose proof (New_client _ _ _ _ _ H2) as Hcl2.
  pose proof (New_ua _ _ _ _ _ H1) as (_ & Hu1 & Hs1).
  pose proof (New_ua _ _ _ _ _ H2) as (_ & Hu2 & Hs2).
  apply New_inv in H1 as (Hc1 & _ & _). apply New_inv in H2 as (Hc2 & _ & _).
  cbv zeta in Hcl1, Hcl2.
  assert (Hcfg : Crawler.config c2 = Crawler.config c).
  { rewrite Hc2, Hc1. unfold Spec.normalized. cbn.
    destruct (decide (Config.WorkerCount config <= 0));
      destruct (decide _); try lia; reflexivity. }
  assert (Hclient : Crawler.client c2 = Crawler.client c).
  { destruct Hcl1 as (A1 & B1 & C1), Hcl2 as (A2 & B2 & C2).
    rewrite Hcfg in A2.
    assert (Hsame : Config.Client (Crawler.config c) = Config.Client config)
      by now rewrite Hc1.
    rewrite Hsame in A2, B2, C2.
    destruct (Crawler.client c2), (Crawler.client c). cbn in *. congruence. }
  split; [exact Hcfg |]. split; [exact Hclient |].
  intros Hne. specialize (Hu1 Hne).
  assert (Hne2 : Config.UserAgent (Crawler.config c) ≠ "") by now rewrite Hc1.
  specialize (Hu2 Hne2). rewrite Hc1 in Hu2. cbn in Hu2.
  destruct c2, c. cbn in *. congruence.
Qed.

(** X7: processURL on a crawler that New built always returns: no
    callback it calls is nil.  It calls the request builder once. *)
Theorem New_processURL ctx config s c s' ctx' url x :
  Crawl.New ctx config s = Done c s' ->
  exists x', Crawl.processURL c ctx' url x = Done tt x' /\
             Spec.builds (trace x') = Spec.builds (trace x) ++ [url].
Proof.
  intros H. apply processURL_returns. exact (New_callbacks_set _ _ _ _ _ H).
Qed.

End NewMore.

(** X4 on the config of the package's test of a provided user agent. *)
Lemma New_identity_witness :
  @Crawl.New Toy.libs _ Toy.down 0%nat Toy.custom Toy.start
  = Done Toy2.built Toy.start /\
  Crawler.userAgent Toy2.built = "Custom User Agent" /\
  Crawler.secChUa Toy2.built ≠ "".
Proof.
  assert (H : @Crawl.New Toy.libs _ Toy.down 0%nat Toy.custom Toy.start
              = Done Toy2.built Toy.start) by (vm_compute; reflexivity).
  split; [exact H |].
  pose proof (@New_identity Toy.libs _ Toy.down _ _ _ _ _ H) as (_ & Hua & _ & Hsec).
  split; [apply Hua; discriminate | exact Hsec].
Defined.

(** X5 on the empty config: one request, which fails. *)
Lemma New_sends_witness :
  let run := @Crawl.New Toy.libs _ Toy.down 0%nat Config.zero Toy.start in
  run = Done (Toy2.value run Toy2.built) (Spec.final run) /\
  (Trace.count Trace.is_send (trace (Spec.final run)) <= 1)%nat.
Proof.
  cbv zeta.
  assert (H : @Crawl.New Toy.libs _ Toy.down 0%nat Config.zero Toy.start
              = Done (Toy2.value (@Crawl.New Toy.libs _ Toy.down 0%nat Config.zero Toy.start)
                        Toy2.built)
                  (Spec.final (@Crawl.New Toy.libs _ Toy.down 0%nat Config.zero Toy.start)))
    by (vm_compute; reflexivity).
  split; [exact H |].
  exact (proj1 (proj2 (@New_sends Toy.libs _ Toy.down _ _ _ _ _ H))).
Defined.

(** X6: New twice on the config of the package's test. *)
Lemma New_again_witness :
  @Crawl.New Toy.libs _ Toy.down 0%nat Toy.custom Toy.start
  = Done Toy2.built Toy.start /\
  @Crawl.New Toy.libs _ Toy.down 1%nat (Crawler.config Toy2.built) Toy.start
  = Done Toy2.built Toy.start.
Proof.
  assert (H1 : @Crawl.New Toy.libs _ Toy.down 0%nat Toy.custom Toy.start
               = Done Toy2.built Toy.start) by (vm_compute; reflexivity).
  split; [exact H1 |].
  assert (Hret : exists c2, @Crawl.New Toy.libs _ Toy.down 1%nat
                              (Crawler.config Toy2.built) Toy.start = Done c2 Toy.start)
    by (apply New_returns; discriminate).
  destruct Hret as [c2 H2]. rewrite H2. f_equal.
  refine (proj2 (proj2 (@New_again Toy.libs _ Toy.down _ _ _ _ _ _ _ _ _ H1 H2)) _).
  discriminate.
Defined.

(** X7: the crawler of the package's test on a host that is down. *)
Lemma New_processURL_witness :
  let url := "http://another-invalid-domain-99999.com" in
  @Crawl.New Toy.libs _ Toy.down 0%nat Toy.custom Toy.start
  = Done Toy2.built Toy.start /\
  exists x',
    @Crawl.processURL _ Toy.down Toy2.built 0%nat url Toy.start = Done tt x' /\
    Spec.builds (trace x') = [url].
Proof.
  cbv zeta.
  assert (H : @Crawl.New Toy.libs _ Toy.down 0%nat Toy.custom Toy.start
              = Done Toy2.built Toy.start) by (vm_compute; reflexivity).
  split; [exact H |].
  exact (@New_processURL Toy.libs _ Toy.down _ _ _ _ _ 0%nat
           "http://another-invalid-domain-99999.com" Toy.start H).
Defined.

(** ** crawler.go: processURL *)

Section ProcessMore.
Context {W : Type} {Wd : World W}.
Implicit Types (c : Crawler.t W) (s : State W).

#[local] Arguments Crawl.inject_headers : simpl never.
#[local] Arguments Trace.count : simpl never.

#[local] Ltac tally :=
  unfold Report.errs; cbn;
  repeat (progress (rewrite ?count_app, ?count_cons, ?count_nil; cbn));
  repeat split; intros; cbn; lia.

(** The calls of a run of processURL that returns, by what the callbacks
    and the transport answer. *)
Lemma processURL_trace c ctx url s s' :
  Crawl.processURL c ctx url s = Done tt s' ->
  exists build, Config.RequestBuilder (Crawler.config c) = Some build /\
  let built := build ctx url (world s) in
  match built.1 with
  | Err e => trace s' = trace s ++ [EvBuild url; EvError url e]
  | Ok req =>
      let sent := http.with_header (Crawl.inject_headers c (http.Hdr req)) req in
      let answer := http_Client_Do (Crawler.client c) sent built.2 in
      match answer.1 with
      | Err e =>
          trace s' = trace s ++ [EvBuild url; EvSend (Crawler.client c) sent;
                                 EvError url e]
      | Ok resp =>
          exists handle herr closing,
            Config.ResponseHandler (Crawler.config c) = Some handle /\
            (handle url resp answer.2).1 = herr /\
            trace s' = trace s ++ [EvBuild url; EvSend (Crawler.client c) sent;
                                   EvHandle url resp]
                       ++ Report.errs url herr ++ closing /\
            match http.Body resp with
            | None => closing = []
            | Some body => exists cerr, closing = EvClose :: Report.errs url cerr
            end
      end
  end.
Proof.
  unfold Crawl.processURL, Crawl.report.
  destruct (Config.RequestBuilder (Crawler.config c)) as [build|]; [| discriminate].
  intros H. exists build. split; [reflexivity |]. cbv zeta.
  unfold mbind, M_bind, mret, M_ret, call_, call, nilable, panic in H. cbn in H.
  destruct (build ctx url (world s)) as [[req|e0] w1]; cbn in *.
  2: { destruct (Config.ErrorHandler (Crawler.config c)); [| discriminate].
       injection H as <-. cbn. now rewrite <- app_assoc. }
  destruct (http_Client_Do (Crawler.client c)
              (http.with_header (Crawl.inject_headers c (http.Hdr req)) req) w1)
    as [[resp|e1] w2]; cbn in *.
  2: { destruct (Config.ErrorHandler (Crawler.config c)); [| discriminate].
       injection H as <-. cbn. now rewrite <- !app_assoc. }
  destruct (Config.ResponseHandler (Crawler.config c)) as [handle|]; [| discriminate].
  cbn in H. destruct (handle url resp w2) as [herr w3] eqn:Hh. cbn in H.
  exists handle, herr.
  destruct herr as [e2|]; cbn in H;
    [destruct (Config.ErrorHandler (Crawler.config c)) as [on_error|];
     [| discriminate]; cbn in H |];
    (destruct (http.Body resp) as [body|]; cbn in H;
     [ match type of H with
       | context [http.Close body ?w] => destruct (http.Close body w) as [cerr w4]
       end; cbn in H;
       destruct cerr as [e3|]; cbn in H;
       [ try (destruct (Config.ErrorHandler (Crawler.config c)); [| discriminate]);
         cbn in H; injection H as <-;
         exists [EvClose; EvError url e3]; cbn;
         split; [reflexivity |]; split; [rewrite Hh; reflexivity |];
         split; [rewrite <- ?app_assoc; reflexivity | exists (Some e3); reflexivity]
       | injection H as <-; exists [EvClose]; cbn;
         split; [reflexivity |]; split; [rewrite Hh; reflexivity |];
         split; [rewrite <- ?app_assoc; reflexivity | exists None; reflexivity] ]
     | injection H as <-; exists []; cbn;
       split; [reflexivity |]; split; [rewrite Hh; reflexivity |];
       split; [rewrite <- ?app_assoc; reflexivity | reflexivity] ]).
Qed.


(** X9: when a response arrives with a body, processURL closes the body
    exactly once, after the call of the response handler and whether or
    not the handler failed; after the close it only reports to the error
    handler. *)
Theorem processURL_closes c ctx url s s' build req resp body :
  Crawl.processURL c ctx url s = Done tt s' ->
  Config.RequestBuilder (Crawler.config c) = Some build ->
  let built := build ctx url (world s) in
  let sent := http.with_header (Crawl.inject_headers c (http.Hdr req)) req in
  built.1 = Ok req ->
  (http_Client_Do (Crawler.client c) sent built.2).1 = Ok resp ->
  http.Body resp = Some body ->
  exists before after,
    trace s' = trace s ++ before ++ EvClose :: after /\
    Trace.count Trace.is_handle before = 1%nat /\
    Trace.count Trace.is_close before = 0%nat /\
    Trace.count Trace.is_close after = 0%nat /\
    Trace.count Trace.is_error after = length after.
Proof.
  intros H Hb built sent Hbuilt Hdo Hbody.
  apply processURL_trace in H as (build' & Hb' & H).
  assert (build' = build) as -> by congruence.
  cbv zeta in H. fold built in H. rewrite Hbuilt in H. fold sent in H.
  rewrite Hdo in H. destruct H as (handle & herr & closing & _ & _ & H & Hclosing).
  rewrite Hbody in Hclosing. destruct Hclosing as [cerr ->].
  exists ([EvBuild url; EvSend (Crawler.client c) sent; EvHandle url resp]
          ++ Report.errs url herr), (Report.errs url cerr).
  split; [rewrite H, <- !app_assoc; reflexivity |].
  destruct herr, cerr; tally.
Qed.

(** X10: when nothing fails, processURL calls the request builder, sends
    the request, calls the response handler and closes the body, in this
    order, and does not call the error handler, which may even be nil. *)
Theorem processURL_success c ctx url s build handle req resp body :
  Config.RequestBuilder (Crawler.config c) = Some build ->
  Config.ResponseHandler (Crawler.config c) = Some handle ->
  let built := build ctx url (world s) in
  let sent := http.with_header (Crawl.inject_headers c (http.Hdr req)) req in
  let answer := http_Client_Do (Crawler.client c) sent built.2 in
  let handled := handle url resp answer.2 in
  let closed := http.Close body handled.2 in
  built.1 = Ok req -> answer.1 = Ok resp -> handled.1 = None ->
  http.Body resp = Some body -> closed.1 = None ->
  Crawl.processURL c ctx url s
  = Done tt {| world := closed.2;
               trace := trace s ++ [EvBuild url; EvSend (Crawler.client c) sent;
                                    EvHandle url resp; EvClose] |}.
Proof.
  intros Hb Hh built sent answer handled closed Hbuilt Hdo Hhandled Hbody Hclosed.
  unfold Crawl.processURL. rewrite Hb, Hh.
  unfold mbind, M_bind, mret, M_ret, call, nilable. cbn.
  subst closed handled answer sent built.
  destruct (build ctx url (world s)) as [r w1]. cbn in *. subst r. cbn.
  destruct (http_Client_Do _ _ w1) as [r2 w2]. cbn in *. subst r2. cbn.
  destruct (handle url resp w2) as [herr w3]. cbn in *. subst herr. cbn.
  rewrite Hbody. unfold call. cbn. destruct (http.Close body w3) as [cerr w4]. cbn in *. subst cerr.
  cbn. rewrite <- ?app_assoc. reflexivity.
Qed.

End ProcessMore.


(** X9 on a response handler that fails: the body is closed all the same. *)
Lemma processURL_closes_witness :
  let c := Toy.crawler Toy.json_builder Toy.failing_handler in
  let run := @Crawl.processURL _ Toy.net c 0%nat "https://example.com" Toy.start in
  run = Done tt (Spec.final run) /\
  exists before after,
    trace (Spec.final run) = trace Toy.start ++ before ++ EvClose :: after /\
    Trace.count Trace.is_handle before = 1%nat /\
    Trace.count Trace.is_close after = 0%nat.
Proof.
  cbv zeta.
  assert (H : @Crawl.processURL _ Toy.net
                (Toy.crawler Toy.json_builder Toy.failing_handler)
                0%nat "https://example.com" Toy.start
              = Done tt (Spec.final
                  (@Crawl.processURL _ Toy.net
                     (Toy.crawler Toy.json_builder Toy.failing_handler)
                     0%nat "https://example.com" Toy.start)))
    by (vm_compute; reflexivity).
  split; [exact H |].
  destruct (@processURL_closes _ Toy.net _ _ _ _ _ Toy.json_builder
              (Toy.json_request "https://example.com") (Toy.ok_response "OK")
              (Toy.body "OK" None) H eq_refl eq_refl eq_refl eq_refl)
    as (before & after & Ht & Hh & _ & Hc & _).
  exists before, after. split; [exact Ht |]. split; [exact Hh | exact Hc].
Defined.

(** X10 on the default callbacks and a host that answers. *)
Lemma processURL_success_witness :
  @Crawl.processURL _ Toy.net Toy.c2 0%nat "https://example.com" Toy.start
  = Done tt
      {| world := ["https://example.com -> 200 200 OK" +:+ Handlers.newline];
         trace := [EvBuild "https://example.com";
                   EvSend (Crawler.client Toy.c2)
                     (http.with_header
                        (Crawl.inject_headers Toy.c2 ∅)
                        (Toy.req_for "example.com"));
                   EvHandle "https://example.com" (Toy.ok_response "OK");
                   EvClose] |}.
Proof.
  etransitivity.
  - exact (@processURL_success _ Toy.net Toy.c2 0%nat "https://example.com" Toy.start
             (@Handlers.DefaultRequestBuilder Toy.libs Toy.W)
             (@Handlers.DefaultResponseHandler Toy.W Toy.net)
             (Toy.req_for "example.com") (Toy.ok_response "OK") (Toy.body "OK" None)
             eq_refl eq_refl eq_refl eq_refl eq_refl eq_refl eq_refl).
  - vm_compute. reflexivity.
Defined.

(** ** crawler.go: the headers of a request *)

Section HeadersMore.
Context {W : Type}.
Implicit Types (c : Crawler.t W) (h : http.Header).

(** The value that processURL has for a Chrome header. *)
Lemma chrome_header_value c key :
  key ∈ map fst (Crawl.chrome_headers c) ->
  exists value, (key, value) ∈ Crawl.chrome_headers c.
Proof.
  intros Hin. apply list_elem_of_fmap in Hin as ([k v] & -> & Hin).
  now exists v.
Qed.

(** [h.Get(key)] for a key that is canonical. *)
Lemma Get_canon h key :
  http.CanonicalMIMEHeaderKey key = key ->
  http.Get h key = match h !! key with Some (v :: _) => v | _ => "" end.
Proof. intros Hc. unfold http.Get. now rewrite Hc. Qed.

(** X11: setting the headers is idempotent: a request that already went
    through processURL gets the same headers when it goes through it
    again, whatever the request builder had set. *)
Theorem inject_headers_idempotent c h :
  Crawl.inject_headers c (Crawl.inject_headers c h) = Crawl.inject_headers c h.
Proof.
  apply map_eq. intros key.
  destruct (decide (key = "User-Agent")) as [->|Hua].
  { rewrite !inject_headers_user_agent. reflexivity. }
  destruct (decide (key ∈ map fst (Crawl.chrome_headers c))) as [Hin|Hout].
  - destruct (chrome_header_value c key Hin) as [value Hv].
    destruct (chrome_header_key c key value Hv) as [Hcanon _].
    rewrite (inject_headers_chrome c (Crawl.inject_headers c h) key value Hv).
    destruct (decide (http.Get (Crawl.inject_headers c h) key = "")) as [He|_];
      [| reflexivity].
    rewrite (Get_canon _ _ Hcanon) in He.
    rewrite (inject_headers_chrome c h key value Hv) in He |- *.
    destruct (decide (http.Get h key = "")) as [_|Hne]; [reflexivity |].
    exfalso. apply Hne. now rewrite (Get_canon _ _ Hcanon).
  - assert (Hk : key ∉ "User-Agent" :: map fst (Crawl.chrome_headers c)).
    { intros [->|?]%elem_of_cons; contradiction. }
    rewrite !inject_headers_other by exact Hk. reflexivity.
Qed.

(** The headers that processURL sets have a value after it, when the
    user agent and the client-hint string of the crawler are not empty. *)
Lemma inject_headers_complete c h key :
  Crawler.userAgent c ≠ "" -> Crawler.secChUa c ≠ "" ->
  key ∈ "User-Agent" :: map fst (Crawl.chrome_headers c) ->
  http.Get (Crawl.inject_headers c h) key ≠ "".
Proof.
  intros Hua Hsec [->|Hin]%elem_of_cons.
  - rewrite (Get_canon _ "User-Agent" eq_refl), inject_headers_user_agent.
    exact Hua.
  - destruct (chrome_header_value c key Hin) as [value Hv].
    destruct (chrome_header_key c key value Hv) as [Hcanon _].
    rewrite (Get_canon _ _ Hcanon), (inject_headers_chrome c h key value Hv).
    destruct (decide (http.Get h key = "")) as [_|Hne].
    + unfold Crawl.chrome_headers in Hv.
      repeat (apply elem_of_cons in Hv as [Hv|Hv];
              [injection Hv as _ ->; first [exact Hsec | discriminate] |]).
      now apply not_elem_of_nil in Hv.
    + now rewrite (Get_canon _ _ Hcanon) in Hne.
Qed.

End HeadersMore.

Section HeadersNew.
Context {L : Libs} {W : Type} {Wd : World W}.

(** X12: every request that a crawler built by New sends carries all
    fifteen browser headers with a first value that is not empty,
    whatever the request builder has put into the header [h]:
    User-Agent, the six fixed ones, the three client hints, the four
    fetch-metadata ones and Upgrade-Insecure-Requests. *)
Theorem New_headers_complete ctx (config : Config.t W) s c s' h :
  Crawl.New ctx config s = Done c s' ->
  Forall (fun key => http.Get (Crawl.inject_headers c h) key ≠ "")
    ["User-Agent"; "Accept"; "Accept-Language"; "Cache-Control"; "Pragma";
     "Priority"; "Referer"; "Sec-Ch-Ua"; "Sec-Ch-Ua-Mobile"; "Sec-Ch-Ua-Platform";
     "Sec-Fetch-Dest"; "Sec-Fetch-Mode"; "Sec-Fetch-Site"; "Sec-Fetch-User";
     "Upgrade-Insecure-Requests"].
Proof.
  intros H.
  destruct (New_ua _ _ _ _ _ H) as (Hne & _ & Hsec).
  rewrite <- (chrome_header_names c). apply Forall_forall. intros key Hin.
  apply inject_headers_complete; [exact Hne | | exact Hin].
  rewrite Hsec. apply generateSecChUa_nonempty.
Qed.

End HeadersNew.

(** X12 on the config of the package's test of a provided user agent and
    a request builder that set two headers of its own. *)
Lemma New_headers_complete_witness :
  @Crawl.New Toy.libs _ Toy.down 0%nat Toy.custom Toy.start
  = Done Toy2.built Toy.start /\
  Forall (fun key =>
            http.Get (Crawl.inject_headers Toy2.built
                        (http.Hdr (Toy.json_request "https://example.com"))) key ≠ "")
    ["User-Agent"; "Accept"; "Accept-Language"; "Cache-Control"; "Pragma";
     "Priority"; "Referer"; "Sec-Ch-Ua"; "Sec-Ch-Ua-Mobile"; "Sec-Ch-Ua-Platform";
     "Sec-Fetch-Dest"; "Sec-Fetch-Mode"; "Sec-Fetch-Site"; "Sec-Fetch-User";
     "Upgrade-Insecure-Requests"].
Proof.
  assert (H : @Crawl.New Toy.libs _ Toy.down 0%nat Toy.custom Toy.start
              = Done Toy2.built Toy.start) by (vm_compute; reflexivity).
  split; [exact H |].
  exact (@New_headers_complete Toy.libs _ Toy.down _ _ _ _ _ _ H).
Defined.

(** ** handlers.go: the redirection policies *)

Section PoliciesMore.
Context {L : Libs}.

(** X13: SameDomainRedirectionPolicy is at least as strict as the
    default policy of New, DefaultRedirectionPolicy(3): a redirect it
    allows is allowed by the default too.  On the domains it is
    symmetric: the redirect from a chain that started at [first] to
    [req] is judged like one from a chain of the same length that
    started at [req] to [first].  A chain of three requests or more is
    vetoed whatever the domains are, also when they cannot be derived. *)
Theorem SameDomainRedirectionPolicy_stricter (req first : http.Request)
    (via rest rest' : list http.Request) :
  (Handlers.SameDomainRedirectionPolicy req via = None ->
   Handlers.DefaultRedirectionPolicy Crawl.defaultMaxRedirects req via = None) /\
  (length rest = length rest' ->
   Handlers.SameDomainRedirectionPolicy req (first :: rest)
   = Handlers.SameDomainRedirectionPolicy first (req :: rest')).
Proof.
  unfold Handlers.SameDomainRedirectionPolicy, Handlers.DefaultRedirectionPolicy,
    Crawl.defaultMaxRedirects.
  split.
  - destruct (Z.of_nat (length via) >=? 3); [discriminate | reflexivity].
  - intros Hlen. cbn [length]. rewrite Hlen.
    destruct (Z.of_nat (S (length rest')) >=? 3); [reflexivity |].
    destruct (publicsuffix_EffectiveTLDPlusOne (http.Host (http.Url first))) as [d1|];
      destruct (publicsuffix_EffectiveTLDPlusOne (http.Host (http.Url req))) as [d2|];
      try reflexivity.
    destruct (decide (d1 = d2)) as [->|Hne]; repeat case_decide;
      try reflexivity; try congruence; exfalso; eauto.
Qed.

End PoliciesMore.

(** ** crawler.go: the queue of Run *)

Lemma in_flight_app (ws ws' : list Run.wstate) :
  Queue.in_flight (ws ++ ws') = Queue.in_flight ws ++ Queue.in_flight ws'.
Proof. unfold Queue.in_flight. now rewrite map_app, concat_app. Qed.

Lemma in_flight_insert (ws : list Run.wstate) (k : nat) (w w' : Run.wstate) :
  ws !! k = Some w ->
  Queue.held w ++ Queue.in_flight (<[k := w']> ws)
  ≡ₚ Queue.held w' ++ Queue.in_flight ws.
Proof.
  revert k. induction ws as [|a ws IH]; intros [|k] Hk; try discriminate.
  - injection Hk as ->. unfold Queue.in_flight. cbn.
    rewrite !app_assoc. apply Permutation_app_tail, Permutation_app_comm.
  - cbn in Hk. specialize (IH k Hk). unfold Queue.in_flight in *. cbn.
    rewrite !app_assoc.
    rewrite (Permutation_app_comm (Queue.held w) (Queue.held a)).
    rewrite (Permutation_app_comm (Queue.held w') (Queue.held a)).
    rewrite <- !app_assoc. now apply Permutation_app_head.
Qed.

Lemma in_flight_returned (ws : list Run.wstate) :
  Forall (fun w => w = Run.WReturned) ws -> Queue.in_flight ws = [].
Proof.
  induction 1 as [|w ws -> _ IH]; [reflexivity |].
  unfold Queue.in_flight in *. cbn. exact IH.
Qed.

Lemma in_flight_length (ws : list Run.wstate) :
  (length (Queue.in_flight ws) <= length ws)%nat.
Proof.
  induction ws as [|w ws IH]; [reflexivity |].
  unfold Queue.in_flight in *. cbn. rewrite length_app.
  destruct w; cbn; lia.
Qed.

Lemma returned_insert (ws : list Run.wstate) (k : nat) (w' : Run.wstate) :
  Run.WReturned ∈ <[k := w']> ws -> w' = Run.WReturned \/ Run.WReturned ∈ ws.
Proof.
  revert k. induction ws as [|a ws IH]; intros [|k] Hin; cbn in Hin;
    try (now right).
  - apply elem_of_cons in Hin as [->|Hin]; [now left | right; now right].
  - apply elem_of_cons in Hin as [->|Hin]; [right; now left |].
    destruct (IH k Hin); [now left | right; now right].
Qed.

(** The URLs of the generator before index [n], when it has that many. *)
Lemma gen_prefix_S urlGen n url :
  urlGen n = Some url ->
  Queue.gen_prefix urlGen (S n) = Queue.gen_prefix urlGen n ++ [url].
Proof. intros H. cbn. now rewrite H. Qed.

Section ProcessBuilds.
Context {W : Type} {Wd : World W}.

(** A run of processURL that returns has called the request builder
    once, for its URL. *)
Lemma processURL_builds (c : Crawler.t W) ctx url (s s' : State W) :
  Crawl.processURL c ctx url s = Done tt s' ->
  Spec.builds (trace s') = Spec.builds (trace s) ++ [url].
Proof.
  intros H. apply processURL_trace in H as (build & _ & H). cbv zeta in H.
  destruct (build ctx url (world s)).1 as [req|e0].
  2: { rewrite H, builds_app. reflexivity. }
  destruct (http_Client_Do _ _ _).1 as [resp|e1].
  2: { rewrite H, builds_app. reflexivity. }
  destruct H as (handle & herr & closing & _ & _ & H & Hclosing).
  rewrite H, builds_app. f_equal.
  destruct herr; destruct (http.Body resp);
    [destruct Hclosing as [[?|] ->] | subst closing
    |destruct Hclosing as [[?|] ->] | subst closing]; reflexivity.
Qed.

End ProcessBuilds.

Section RunMore.
Context {L : Libs} {W : Type} {Wd : World W}.
Variable c : Crawler.t W.
Variable ctx : Context.
Variable urlGen : nat -> option string.

Local Abbreviation step := (Run.step c ctx urlGen).
Local Abbreviation exec := (Run.exec c ctx urlGen).
Local Abbreviation reachable := (Run.reachable c ctx urlGen).
Local Abbreviation returns := (Run.returns c ctx urlGen).
Local Abbreviation WorkerCount := (Run.WorkerCount c).

#[local] Ltac run_cases H :=
  unfold Run.step, Run.main_step, Run.disp_step, Run.worker_step, Run.send in H;
  repeat case_match; simplify_eq.

(** What the dispatcher has put into the channel. *)
Definition dispatched (s : Run.state W) : Prop :=
  match Run.disp s with
  | None => Run.sent s = [] /\ Run.closed (Run.urlChan s) = false
  | Some (Run.DRange i) =>
      Run.sent s = Queue.gen_prefix urlGen i /\
      (forall j, (j < i)%nat -> is_Some (urlGen j)) /\
      Run.closed (Run.urlChan s) = false
  | Some (Run.DSelect i url) =>
      Run.sent s = Queue.gen_prefix urlGen i /\
      (forall j, (j < i)%nat -> is_Some (urlGen j)) /\
      urlGen i = Some url /\
      Run.closed (Run.urlChan s) = false
  | Some Run.DReturned =>
      Run.closed (Run.urlChan s) = true /\
      exists n, Run.sent s = Queue.gen_prefix urlGen n /\
                (forall j, (j < n)%nat -> is_Some (urlGen j)) /\
                (Run.observed s = false -> urlGen n = None)
  end.

(** What holds of the channel in every state of a run entered with
    world [x]. *)
Record Flow (x : State W) (s : Run.state W) : Prop := {
  flow_cap : Run.cap (Run.urlChan s) = Run.int_wrap (WorkerCount * 2);
  flow_buf : Z.of_nat (length (Run.buf (Run.urlChan s)))
             <= Z.max 0 (Run.cap (Run.urlChan s));
  flow_fifo : Run.buf (Run.urlChan s) `suffix_of` Run.sent s;
  flow_sent : dispatched s;
  flow_done : Run.observed s = false -> Run.WReturned ∈ Run.workers s ->
              Run.closed (Run.urlChan s) = true /\ Run.buf (Run.urlChan s) = [];
  flow_conserve : Run.main s ≠ Run.MCrashed ->
    Spec.builds (trace (Run.st s)) ++ Queue.in_flight (Run.workers s)
      ++ Run.buf (Run.urlChan s)
    ≡ₚ Spec.builds (trace x) ++ Run.sent s;
}.

Lemma Flow_init e x : Flow x (Run.init c e x).
Proof.
  constructor; cbn; try done; try lia.
  all: try (intros _ Hin; now apply not_elem_of_nil in Hin).
  all: try (intros _; now rewrite !app_nil_r).
Qed.

Lemma step_inner l s s' :
  step l s = Some s' ->
  Run.main s ≠ Run.MCrashed /\
  match l with
  | Run.LCancel e =>
      match Run.ctx_err s with
      | None => Some (Run.set_ctx_err (Some e) s)
      | Some _ => None
      end
  | Run.LMain => Run.main_step c s
  | Run.LDispatch br => Run.disp_step urlGen br s
  | Run.LWorker k br => Run.worker_step c ctx k br s
  end = Some s'.
Proof. unfold Run.step. destruct (Run.main s); try done; intros; split; done. Qed.

#[local] Arguments Queue.in_flight : simpl never.

#[local] Ltac conserve Hcons :=
  intros Hlive; rewrite ?in_flight_app, ?app_nil_r; cbn; rewrite ?app_nil_r;
  apply Hcons; congruence.

Lemma Flow_main x s s' :
  Inv c s -> Flow x s -> Run.main_step c s = Some s' -> Flow x s'.
Proof.
  intros Hinv HF Hstep. pose proof (inv_disp _ _ Hinv) as Hdisp. revert HF.
  unfold Run.main_step in Hstep.
  repeat case_match; simplify_eq; intros [Hcap Hbuf Hfifo Hsent Hdone Hcons];
    constructor; unfold dispatched in *; cbn in *; try assumption; try done;
    try (conserve Hcons).
  - intros Hobs [Hin|Hin%list_elem_of_singleton]%elem_of_app; [auto | done].
  - rewrite Hdisp in Hsent. destruct Hsent as [-> Hclosed].
    split; [reflexivity |]. split; [intros; lia | exact Hclosed].
Qed.

#[local] Arguments Queue.gen_prefix : simpl never.

Lemma Flow_disp x br s s' :
  Flow x s -> Run.disp_step urlGen br s = Some s' -> Flow x s'.
Proof.
  intros HF Hstep. revert HF.
  unfold Run.disp_step, Run.send in Hstep.
  repeat case_match; simplify_eq; intros [Hcap Hbuf Hfifo Hsent Hdone Hcons];
    constructor; unfold dispatched in *; cbn in *; try assumption; try done;
    try (conserve Hcons).
  all: repeat match goal with
           | H : Run.disp _ = _ |- _ => rewrite H in *
           end.
  all: try (intros Hobs Hin; destruct (Hdone Hobs Hin) as [Hc Hb];
            exfalso; clear - Hc Hsent; intuition congruence).
  - intuition.
  - destruct Hsent as (Hs & Hall & Hcl). split; [done |]. exists i. auto.
  - destruct Hsent as (Hs & Hall & Hu & Hcl). split; [done |]. exists i.
    split; [exact Hs |]. split; [exact Hall | discriminate].
  - rewrite length_app. cbn. lia.
  - destruct Hfifo as [k ->]. exists k. now rewrite app_assoc.
  - destruct Hsent as (Hs & Hall & Hu & Hcl).
    rewrite (gen_prefix_S _ _ _ Hu), Hs. split; [reflexivity |].
    split; [| exact Hcl].
    intros j Hj. destruct (decide (j = i)) as [->|Hne]; [eauto | apply Hall; lia].
  - intros Hl. specialize (Hcons Hl). rewrite !app_assoc.
    apply Permutation_app_tail. rewrite <- !app_assoc. exact Hcons.
Qed.

Lemma Flow_worker x k br s s' :
  Flow x s -> Run.worker_step c ctx k br s = Some s' -> Flow x s'.
Proof.
  intros HF Hstep. revert HF.
  unfold Run.worker_step, Run.worker_return in Hstep.
  repeat case_match; simplify_eq; intros [Hcap Hbuf Hfifo Hsent Hdone Hcons];
    constructor; unfold dispatched in *; cbn in *; try assumption; try done.
  all: try match goal with
           | Hb : Run.buf _ = _ :: _ |- _ => rewrite Hb in *
           end.
  all: try (intros Hobs [?|Hin]%returned_insert; [done |];
            destruct (Hdone Hobs Hin) as [Hc Hb]; done).
  all: try match goal with
           | Hk : Run.workers _ !! ?k0 = Some ?w
             |- _ -> _ ++ Queue.in_flight (insert ?k0 ?w' _) ++ _ ≡ₚ _ =>
               intros Hl; specialize (Hcons Hl);
               pose proof (in_flight_insert _ k0 w w' Hk) as Hp; cbn in Hp
           end.
  - destruct (Run.disp s) as [[| |]|]; try assumption.
    destruct Hsent as (Hc & n & Hs & Hall & _).
    split; [done |]. exists n. split; [exact Hs |]. split; [exact Hall | discriminate].
  - now rewrite Hp.
  - now rewrite Hp.
  - cbn in Hbuf. lia.
  - destruct Hfifo as [k' Hk']. exists (k' ++ [s0]). now rewrite <- app_assoc.
  - rewrite Hp, <- Hcons. apply Permutation_app_head. cbn.
    apply Permutation_middle.
  - match goal with
    | Hrun : Crawl.processURL _ _ _ _ = Done ?u _ |- _ =>
        destruct u; rewrite (processURL_builds _ _ _ _ _ Hrun)
    end.
    rewrite <- app_assoc, (app_assoc [_]), Hp. exact Hcons.
Qed.

Lemma Flow_step x l s s' :
  Inv c s -> Flow x s -> step l s = Some s' -> Flow x s'.
Proof.
  intros Hinv HF Hstep. apply step_inner in Hstep as [_ Hstep].
  destruct l as [e| |br|k br].
  - destruct (Run.ctx_err s); [discriminate |]. injection Hstep as <-.
    destruct HF. constructor; assumption.
  - exact (Flow_main _ _ _ Hinv HF Hstep).
  - exact (Flow_disp _ _ _ _ HF Hstep).
  - exact (Flow_worker _ _ _ _ _ HF Hstep).
Qed.

Lemma Flow_reachable e x s : reachable e x s -> Flow x s.
Proof.
  induction 1 as [|l s s' Hreach IH Hstep]; [apply Flow_init |].
  exact (Flow_step _ _ _ _ (Inv_reachable _ _ _ _ _ _ Hreach) IH Hstep).
Qed.

Lemma gen_prefix_length n :
  (forall j, (j < n)%nat -> is_Some (urlGen j)) ->
  length (Queue.gen_prefix urlGen n) = n.
Proof.
  induction n as [|n IH]; intros Hall; [reflexivity |].
  destruct (Hall n) as [url Hu]; [lia |].
  rewrite (gen_prefix_S _ _ _ Hu), length_app, IH by (intros; apply Hall; lia).
  cbn. lia.
Qed.

(** The workers that Run has started. *)
Lemma workers_bound s :
  Inv c s -> Run.main s ≠ Run.MCrashed ->
  Z.of_nat (length (Run.workers s)) <= Z.max 0 WorkerCount.
Proof.
  intros Hinv Hlive. pose proof (inv_spawn _ _ Hinv) as Hsp.
  destruct (Run.main s); try done.
  - rewrite Hsp. cbn. lia.
  - destruct Hsp as (? & -> & ?). fold WorkerCount in *. lia.
  - rewrite Hsp. fold WorkerCount. lia.
  - rewrite Hsp. fold WorkerCount. lia.
Qed.

(** X14: Run puts the generator under back pressure.  The channel never
    holds more than its capacity of 2 * WorkerCount URLs, and the URLs
    put into it exceed the URLs processed so far by at most
    3 * WorkerCount: the content of the channel and one URL per
    worker. *)
Theorem Run_back_pressure e x s :
  reachable e x s ->
  Run.cap (Run.urlChan s) = Run.int_wrap (WorkerCount * 2) /\
  Z.of_nat (length (Run.buf (Run.urlChan s))) <= Z.max 0 (Run.cap (Run.urlChan s)) /\
  (Run.main s ≠ Run.MCrashed ->
   Z.of_nat (length (Run.sent s))
   <= Z.of_nat (length (Spec.builds (trace (Run.st s))))
      - Z.of_nat (length (Spec.builds (trace x)))
      + Z.max 0 WorkerCount + Z.max 0 (Run.cap (Run.urlChan s))).
Proof.
  intros Hreach. pose proof (Flow_reachable _ _ _ Hreach) as HF.
  pose proof (Inv_reachable _ _ _ _ _ _ Hreach) as Hinv.
  split; [exact (flow_cap _ _ HF) |]. split; [exact (flow_buf _ _ HF) |].
  intros Hlive. pose proof (flow_conserve _ _ HF Hlive) as Hp.
  apply Permutation_length in Hp. rewrite !length_app in Hp.
  pose proof (in_flight_length (Run.workers s)).
  pose proof (workers_bound _ Hinv Hlive). pose proof (flow_buf _ _ HF). lia.
Qed.

(** X15: the dispatcher puts the URLs of the generator into the channel
    in the order of the generator, each once and none left out, and
    never asks the generator past its end; the channel is a queue: what
    it holds are the URLs sent last, in the order they were sent. *)
Theorem Run_dispatch_order e x s :
  reachable e x s ->
  Run.buf (Run.urlChan s) `suffix_of` Run.sent s /\
  exists n, Run.sent s = Queue.gen_prefix urlGen n /\
            length (Run.sent s) = n /\
            forall j, (j < n)%nat -> is_Some (urlGen j).
Proof.
  intros Hreach. pose proof (Flow_reachable _ _ _ Hreach) as HF.
  split; [exact (flow_fifo _ _ HF) |].
  pose proof (flow_sent _ _ HF) as Hs. unfold dispatched in Hs.
  destruct (Run.disp s) as [[i|i url|]|].
  - destruct Hs as (Hs & Hall & _). exists i.
    split; [exact Hs |]. split; [rewrite Hs; now apply gen_prefix_length | exact Hall].
  - destruct Hs as (Hs & Hall & _). exists i.
    split; [exact Hs |]. split; [rewrite Hs; now apply gen_prefix_length | exact Hall].
  - destruct Hs as (_ & n & Hs & Hall & _). exists n.
    split; [exact Hs |]. split; [rewrite Hs; now apply gen_prefix_length | exact Hall].
  - destruct Hs as [Hs _]. exists 0%nat. rewrite Hs.
    split; [reflexivity |]. split; [reflexivity | intros; lia].
Qed.

(** X16: while Run has not panicked no URL is lost and none is processed
    twice: the URLs for which the request builder was called, the URLs
    that workers hold and the URLs in the channel are, as a multiset,
    the URLs processed before Run and the URLs put into the channel. *)
Theorem Run_conservation e x s :
  reachable e x s -> Run.main s ≠ Run.MCrashed ->
  Spec.builds (trace (Run.st s)) ++ Queue.in_flight (Run.workers s)
    ++ Run.buf (Run.urlChan s)
  ≡ₚ Spec.builds (trace x) ++ Run.sent s.
Proof.
  intros Hreach. exact (flow_conserve _ _ (Flow_reachable _ _ _ Hreach)).
Qed.

(** X17: when Run returns nil and WorkerCount is positive, the generator
    has ended and each of its URLs has been processed exactly once: the
    request builder was called for the URLs of the generator, as a
    multiset, and for no other. *)
Theorem Run_complete e x s s' :
  reachable e x s -> returns s None s' -> 0 < WorkerCount ->
  exists n, urlGen n = None /\
            (forall j, (j < n)%nat -> is_Some (urlGen j)) /\
            Spec.builds (trace (Run.st s'))
            ≡ₚ Spec.builds (trace x) ++ Queue.gen_prefix urlGen n.
Proof.
  intros Hreach (Hwait & Hstep & Hmain) Hpos.
  assert (Hreach' : reachable e x s') by (econstructor; eassumption).
  pose proof (Inv_reachable _ _ _ _ _ _ Hreach') as Hinv.
  pose proof (Flow_reachable _ _ _ Hreach') as HF.
  pose proof (inv_returned _ _ Hinv _ Hmain) as Hall.
  pose proof (inv_spawn _ _ Hinv) as Hlen. rewrite Hmain in Hlen.
  fold WorkerCount in Hlen.
  assert (Hobs : Run.observed s' = false).
  { destruct (Run.observed s') eqn:Hobs; [| reflexivity].
    destruct (inv_observed _ _ Hinv Hobs) as [e1 He1].
    pose proof (inv_observed _ _ (Inv_reachable _ _ _ _ _ _ Hreach)) as Hobs0.
    unfold Run.step, Run.main_step in Hstep. rewrite Hwait in Hstep.
    destruct (Run.wg s =? 0); [| discriminate]. injection Hstep as <-.
    cbn in *. congruence. }
  assert (Hin : Run.WReturned ∈ Run.workers s').
  { destruct (Run.workers s') as [|w ws]; [cbn in Hlen; lia |].
    apply Forall_cons in Hall as [-> _]. left. }
  destruct (flow_done _ _ HF Hobs Hin) as [Hclosed Hbuf].
  pose proof (flow_sent _ _ HF) as Hs. unfold dispatched in Hs.
  destruct (Run.disp s') as [[i|i url|]|];
    try (exfalso; clear - Hs Hclosed; intuition congruence).
  destruct Hs as (_ & n & Hs & Hsome & Hend).
  exists n. split; [exact (Hend Hobs) |]. split; [exact Hsome |].
  rewrite <- Hs, <- (flow_conserve _ _ HF) by (rewrite Hmain; discriminate).
  now rewrite (in_flight_returned _ Hall), Hbuf, !app_nil_r.
Qed.


(** *** Run can finish *)

#[local] Arguments Run.live : simpl never.





End RunMore.

Section RunNew.
Context {L : Libs} {W : Type} {Wd : World W}.





End RunNew.

(** X14 on the run of the examples, after the URL has been processed. *)
Lemma Run_back_pressure_witness :
  let url := "https://example.com" in
  let schedule := take 8 Toy.schedule_done_then_cancel in
  let s := Toy.after [url] schedule in
  @Run.exec _ Toy.net Toy.c2 0%nat (Toy.gen [url]) schedule
    (Run.init Toy.c2 None Toy.start) = Some s /\
  Run.cap (Run.urlChan s) = 4 /\
  Z.of_nat (length (Run.buf (Run.urlChan s))) <= Z.max 0 (Run.cap (Run.urlChan s)).
Proof.
  cbv zeta.
  match goal with
  | |- ?E /\ _ => assert (He : E) by (vm_compute; reflexivity)
  end.
  split; [exact He |].
  pose proof (@Run_back_pressure _ Toy.net Toy.c2 0%nat (Toy.gen ["https://example.com"])
                None Toy.start _
                (exec_reachable _ _ _ _ _ _ _ _ (Run.reach_init _ _ _ _ _) He))
    as (Hcap & Hbuf & _).
  split; [rewrite Hcap; reflexivity | exact Hbuf].
Defined.

(** X15 on the run of the examples, with the URL in the channel. *)
Lemma Run_dispatch_order_witness :
  let url := "https://example.com" in
  let schedule := take 6 Toy.schedule_done_then_cancel in
  let s := Toy.after [url] schedule in
  @Run.exec _ Toy.net Toy.c2 0%nat (Toy.gen [url]) schedule
    (Run.init Toy.c2 None Toy.start) = Some s /\
  Run.buf (Run.urlChan s) `suffix_of` Run.sent s /\
  exists n, Run.sent s = Queue.gen_prefix (Toy.gen [url]) n /\
            length (Run.sent s) = n /\
            forall j, (j < n)%nat -> is_Some (Toy.gen [url] j).
Proof.
  cbv zeta.
  match goal with
  | |- ?E /\ _ => assert (He : E) by (vm_compute; reflexivity)
  end.
  split; [exact He |].
  exact (@Run_dispatch_order _ Toy.net Toy.c2 0%nat (Toy.gen ["https://example.com"])
           None Toy.start _
           (exec_reachable _ _ _ _ _ _ _ _ (Run.reach_init _ _ _ _ _) He)).
Defined.

(** X16 on the run of the examples, while a worker holds the URL. *)
Lemma Run_conservation_witness :
  let url := "https://example.com" in
  let schedule := take 7 Toy.schedule_done_then_cancel in
  let s := Toy.after [url] schedule in
  @Run.exec _ Toy.net Toy.c2 0%nat (Toy.gen [url]) schedule
    (Run.init Toy.c2 None Toy.start) = Some s /\
  Queue.in_flight (Run.workers s) = [url] /\
  Spec.builds (trace (Run.st s)) ++ Queue.in_flight (Run.workers s)
    ++ Run.buf (Run.urlChan s)
  ≡ₚ Spec.builds (trace Toy.start) ++ Run.sent s.
Proof.
  cbv zeta.
  match goal with
  | |- ?E /\ _ => assert (He : E) by (vm_compute; reflexivity)
  end.
  split; [exact He |]. split; [vm_compute; reflexivity |].
  refine (@Run_conservation _ Toy.net Toy.c2 0%nat (Toy.gen ["https://example.com"])
            None Toy.start _
            (exec_reachable _ _ _ _ _ _ _ _ (Run.reach_init _ _ _ _ _) He) _).
  vm_compute. discriminate.
Defined.

(** X17 on the run of the examples that returns nil. *)
Lemma Run_complete_witness :
  let url := "https://example.com" in
  let schedule := take 11 Toy.schedule_done_then_cancel in
  let s := Toy.after [url] schedule in
  let s' := Run.set_main (Run.MReturned None) s in
  @Run.exec _ Toy.net Toy.c2 0%nat (Toy.gen [url]) schedule
    (Run.init Toy.c2 None Toy.start) = Some s /\
  @Run.returns _ Toy.net Toy.c2 0%nat (Toy.gen [url]) s None s' /\
  exists n, Toy.gen [url] n = None /\
            (forall j, (j < n)%nat -> is_Some (Toy.gen [url] j)) /\
            Spec.builds (trace (Run.st s'))
            ≡ₚ Spec.builds (trace Toy.start) ++ Queue.gen_prefix (Toy.gen [url]) n.
Proof.
  cbv zeta.
  match goal with
  | |- ?E /\ ?R /\ _ =>
      assert (He : E) by (vm_compute; reflexivity);
      assert (Hr : R) by by_eval
  end.
  split; [exact He |]. split; [exact Hr |].
  refine (@Run_complete _ Toy.net Toy.c2 0%nat (Toy.gen ["https://example.com"])
            None Toy.start _ _
            (exec_reachable _ _ _ _ _ _ _ _ (Run.reach_init _ _ _ _ _) He) Hr _).
  reflexivity.
Defined.




(** ** handlers.go: FileURLs *)

Section FileURLsMore.
Context {L : Libs} {W : Type} {F : Files.FS W}.

(** The URLs that the lines of a file stand for. *)
Local Abbreviation urls_of := (omap Files.url_of).

(** One round of the loop of FileURLs. *)
Lemma scan_cons {S : Type} text rest (yield : string -> S -> bool * S) s :
  Files.scan (text :: rest) yield s
  = match Files.url_of text with
    | None => Files.scan rest yield s
    | Some url =>
        if (yield url s).1 then Files.scan rest yield (yield url s).2
        else (false, (yield url s).2)
    end.
Proof.
  cbn [Files.scan]. unfold Files.url_of. cbv zeta.
  destruct (String.eqb _ "" || Files.HasPrefix _ "#")%bool; [reflexivity |].
  destruct (Files.HasPrefix _ "http://"), (Files.HasPrefix _ "https://"); cbn;
    destruct (yield _ s) as [[] s']; reflexivity.
Qed.

Lemma urls_of_cons text rest :
  urls_of (text :: rest)
  = match Files.url_of text with
    | Some url => url :: urls_of rest
    | None => urls_of rest
    end.
Proof. reflexivity. Qed.

Lemma HasPrefix_append (prefix s : string) :
  Files.HasPrefix (prefix +:+ s) prefix = true.
Proof.
  unfold Files.HasPrefix. induction prefix as [|a prefix IH];
    [rewrite append_nil_l; now destruct s |].
  rewrite append_cons. cbn. destruct (ascii_dec a a); [exact IH | contradiction].
Qed.

Lemma url_of_scheme text url :
  Files.url_of text = Some url -> Yield.has_scheme url = true.
Proof.
  unfold Files.url_of, Yield.has_scheme. cbv zeta.
  destruct (String.eqb _ "" || Files.HasPrefix _ "#")%bool; [discriminate |].
  destruct (Files.HasPrefix _ "http://" || Files.HasPrefix _ "https://")%bool eqn:Hp;
    intros [= <-]; [exact Hp |].
  apply orb_true_iff. right. apply HasPrefix_append.
Qed.

Lemma logged_eq {S : Type} (yield : string -> S -> bool * S) url s log :
  Yield.logged yield url (s, log)
  = ((yield url s).1, ((yield url s).2, log ++ [url])).
Proof. unfold Yield.logged. now destruct (yield url s). Qed.

(** The calls of the loop body, for every loop body. *)
Lemma scan_calls {S : Type} texts (yield : string -> S -> bool * S) s log :
  exists called,
    Files.scan texts (Yield.logged yield) (s, log)
    = ((Files.scan texts yield s).1, ((Files.scan texts yield s).2, log ++ called)) /\
    called `prefix_of` urls_of texts /\
    ((Files.scan texts yield s).1 = true -> called = urls_of texts) /\
    ((Files.scan texts yield s).1 = false ->
     exists before url s0, called = before ++ [url] /\ (yield url s0).1 = false).
Proof.
  revert s log. induction texts as [|text rest IH]; intros s log.
  - exists []. cbn. rewrite app_nil_r. repeat split; [done | discriminate].
  - rewrite !scan_cons, urls_of_cons. destruct (Files.url_of text) as [url|].
    2: { exact (IH s log). }
    rewrite !logged_eq. destruct (yield url s) as [[] s'] eqn:Hy; cbn [fst snd].
    + destruct (IH s' (log ++ [url])) as (called & Heq & Hpre & Hall & Hstop).
      exists (url :: called). rewrite Heq, <- app_assoc. split; [reflexivity |].
      split; [now apply prefix_cons |]. split.
      * intros Hend. now rewrite (Hall Hend).
      * intros Hend. destruct (Hstop Hend) as (before & u & s0 & -> & Hu).
        exists (url :: before), u, s0. auto.
    + exists [url]. split; [reflexivity |].
      split; [apply prefix_cons, prefix_nil |]. split; [discriminate |].
      intros _. exists [], url, s. now rewrite Hy.
Qed.

(** X21: ranging over FileURLs to the end collects, in the order of the
    file, the URL of each line that is neither empty nor a comment after
    trimming: the trimmed line if it starts with http:// or https://,
    and https:// followed by the trimmed line otherwise.  Nothing is
    collected when the file cannot be opened. *)
Theorem FileURLs_collect path (w : W) (urls : list string) :
  (Files.FileURLs path _ Files.collect (w, urls)).2
  = urls ++ match (Files.os_Open path w).1 with
            | Ok file => urls_of (Files.lines file)
            | Err _ => []
            end.
Proof.
  unfold Files.FileURLs. destruct (Files.os_Open path w) as [[file|err] w1]; cbn.
  2: { now rewrite app_nil_r. }
  assert (H : forall texts acc,
             Files.scan texts Files.collect acc = (true, acc ++ urls_of texts)).
  { induction texts as [|text rest IH]; intros acc.
    - cbn. now rewrite app_nil_r.
    - rewrite scan_cons, urls_of_cons. destruct (Files.url_of text) as [url|].
      + cbn. rewrite IH, <- app_assoc. reflexivity.
      + apply IH. }
  rewrite H. reflexivity.
Qed.

(** X22: whatever the loop body does, FileURLs calls it only with URLs
    that start with http:// or https://, and the URLs it calls it with
    are the first of the URLs that the lines of the file stand for, in
    their order: all of them, or those up to the one at which the loop
    body returned false.  The
    log that records the calls does not change what the loop body
    computes nor what FileURLs does to the world. *)
Theorem FileURLs_yields {S : Type} path (yield : string -> S -> bool * S)
    (w : W) (s : S) (log : list string) :
  let observed := Files.FileURLs path _ (Yield.logged yield) (w, (s, log)) in
  let plain := Files.FileURLs path _ yield (w, s) in
  let all := match (Files.os_Open path w).1 with
             | Ok file => urls_of (Files.lines file)
             | Err _ => []
             end in
  observed.1 = plain.1 /\ observed.2.1 = plain.2 /\
  exists called,
    observed.2.2 = log ++ called /\
    called `prefix_of` all /\
    Forall (fun url => Yield.has_scheme url = true) called /\
    (called = all \/
     exists before url s0, called = before ++ [url] /\ (yield url s0).1 = false).
Proof.
  cbv zeta. unfold Files.FileURLs.
  destruct (Files.os_Open path w) as [[file|err] w1]; cbn.
  2: { split; [reflexivity |]. split; [reflexivity |]. exists [].
       rewrite app_nil_r. split; [reflexivity |].
       split; [apply prefix_nil |]. split; [constructor | now left]. }
  destruct (scan_calls (Files.lines file) yield s log)
    as (called & Heq & Hpre & Hall & Hstop).
  rewrite Heq. destruct (Files.scan (Files.lines file) yield s) as [ended s'].
  cbn. split; [reflexivity |]. split; [reflexivity |].
  exists called. split; [reflexivity |]. split; [exact Hpre |]. split.
  - apply Forall_forall. intros url Hin.
    destruct Hpre as [rest Hrest].
    assert (Hin' : url ∈ urls_of (Files.lines file))
      by (rewrite Hrest; apply elem_of_app; now left).
    apply list_elem_of_omap in Hin' as (text & _ & Hu).
    exact (url_of_scheme _ _ Hu).
  - destruct ended; [left; now apply Hall | right; now apply Hstop].
Qed.

(** X23: a loop over FileURLs that breaks at its n-th URL gets the first
    n URLs of the file and no more; the file is closed all the same, and
    an error of the scanner is not reported, since the loop did not run
    to the end of the file. *)
Theorem FileURLs_break path (w w1 : W) file (n : nat) :
  Files.os_Open path w = (Ok file, w1) ->
  (1 <= n <= length (urls_of (Files.lines file)))%nat ->
  Files.FileURLs path _ (Files.collect_upto n) (w, [])
  = (Files.file_Close file w1, take n (urls_of (Files.lines file))).
Proof.
  intros Hopen Hn. unfold Files.FileURLs. rewrite Hopen.
  assert (H : forall texts acc,
             (length acc < n <= length acc + length (urls_of texts))%nat ->
             Files.scan texts (Files.collect_upto n) acc
             = (false, acc ++ take (n - length acc) (urls_of texts))).
  { induction texts as [|text rest IH]; intros acc Hacc.
    - cbn in Hacc. lia.
    - rewrite scan_cons. rewrite urls_of_cons in *.
      destruct (Files.url_of text) as [url|].
      2: { exact (IH acc Hacc). }
      cbn in Hacc. unfold Files.collect_upto at 1 2 3. cbn [fst snd].
      rewrite length_app. cbn [length].
      destruct (Nat.leb_spec n (length acc + 1)) as [Hle|Hgt]; cbn [negb].
      + replace (n - length acc)%nat with 1%nat by lia. reflexivity.
      + rewrite IH by (rewrite length_app; cbn; lia).
        rewrite length_app. cbn [length].
        replace (n - length acc)%nat with (S (n - (length acc + 1))) by lia.
        cbn. now rewrite <- app_assoc. }
  rewrite H by (cbn; lia). cbn. now rewrite Nat.sub_0_r.
Qed.

End FileURLsMore.

(** X22 on a file of hosts and a loop that stops at a URL with a path. *)
Lemma FileURLs_yields_witness :
  let stop_at_path : string -> unit -> bool * unit :=
    fun url _ => (negb (String.eqb url "http://example.org/a"), tt) in
  (@Files.FileURLs Toy.libs _ ToyFS.fs "hosts.txt" _ (Yield.logged stop_at_path)
     ([], (tt, []))).2.2
  = ["https://example.com"; "http://example.org/a"] /\
  Forall (fun url => Yield.has_scheme url = true)
    ["https://example.com"; "http://example.org/a"].
Proof.
  cbv zeta.
  pose proof (@FileURLs_yields Toy.libs _ ToyFS.fs unit "hosts.txt"
                (fun url _ => (negb (String.eqb url "http://example.org/a"), tt))
                [] tt []) as (_ & _ & called & Hlog & _ & Hscheme & _).
  assert (Hc : called = ["https://example.com"; "http://example.org/a"]).
  { vm_compute in Hlog. congruence. }
  split; [vm_compute; reflexivity | rewrite <- Hc; exact Hscheme].
Defined.

(** X23 on a file of hosts, with a line too long for the scanner at its
    end: the loop breaks at the second URL. *)
Lemma FileURLs_break_witness :
  @Files.FileURLs Toy.libs _ ToyFS.fs "hosts.txt" _ (Files.collect_upto 2) ([], [])
  = (["closed"], ["https://example.com"; "http://example.org/a"]).
Proof.
  etransitivity.
  - refine (@FileURLs_break Toy.libs _ ToyFS.fs "hosts.txt" [] [] ToyFS.hosts 2
              eq_refl _).
    vm_compute. lia.
  - vm_compute. reflexivity.
Defined.

(** ** crawler.go and handlers.go: the default callbacks *)

Section Defaults.
Context {L : Libs} {W : Type} {Wd : World W}.

#[local] Arguments Crawl.inject_headers : simpl never.

(** X24: a crawler built by New from a config without callbacks drops
    every error silently: when the request cannot be built or sent, the
    error handler is called and the world stays as the transport left
    it, with nothing printed.  When a response arrives, the only output
    is the status line of DefaultResponseHandler on the standard output,
    written before the body is closed. *)
Theorem New_defaults ctx (config : Config.t W) s c s' ctx' url x :
  Crawl.New ctx config s = Done c s' ->
  Config.RequestBuilder config = None ->
  Config.ResponseHandler config = None ->
  Config.ErrorHandler config = None ->
  exists x',
    Crawl.processURL c ctx' url x = Done tt x' /\
    match http_NewRequestWithContext ctx' "GET" url with
    | Err e =>
        x' = {| world := world x; trace := trace x ++ [EvBuild url; EvError url e] |}
    | Ok req =>
        let sent := http.with_header (Crawl.inject_headers c (http.Hdr req)) req in
        match http_Client_Do (Crawler.client c) sent (world x) with
        | (Err e, w2) =>
            x' = {| world := w2;
                    trace := trace x ++ [EvBuild url; EvSend (Crawler.client c) sent;
                                         EvError url e] |}
        | (Ok resp, w2) =>
            let w3 := fmt_Printf (url +:+ " -> " +:+ pretty (http.StatusCode resp)
                                  +:+ " " +:+ http.Status resp +:+ Handlers.newline) w2 in
            match http.Body resp with
            | None =>
                x' = {| world := w3;
                        trace := trace x ++ [EvBuild url; EvSend (Crawler.client c) sent;
                                             EvHandle url resp] |}
            | Some body =>
                world x' = (http.Close body w3).2 /\
                trace x' = trace x ++ [EvBuild url; EvSend (Crawler.client c) sent;
                                       EvHandle url resp; EvClose]
                           ++ Report.errs url (http.Close body w3).1
            end
        end
    end.
Proof.
  intros H Hb Hh He. apply New_inv in H as (Hcfg & _).
  unfold Crawl.processURL, Crawl.report. rewrite Hcfg. cbn. rewrite Hb, Hh, He. cbn.
  unfold mbind, M_bind, mret, M_ret, call_, call, nilable.
  cbn. unfold Handlers.DefaultRequestBuilder. cbn.
  destruct (http_NewRequestWithContext ctx' "GET" url) as [req|e0]; cbn.
  2: { eexists. split; [reflexivity |]. now rewrite <- app_assoc. }
  destruct (http_Client_Do _ _ (world x)) as [[resp|e1] w2]; cbn.
  2: { eexists. split; [reflexivity |]. now rewrite <- !app_assoc. }
  unfold Handlers.DefaultResponseHandler. cbn.
  destruct (http.Body resp) as [body|]; cbn.
  2: { eexists. split; [reflexivity |]. now rewrite <- !app_assoc. }
  destruct (http.Close body _) as [[e2|] w4]; cbn;
    (eexists; split; [reflexivity |]; cbn; split; [reflexivity |];
     now rewrite <- !app_assoc).
Qed.

End Defaults.

(** X24 on the empty config, with no host in reach: nothing is printed. *)
Lemma New_defaults_witness :
  let url := "http://another-invalid-domain-99999.com" in
  @Crawl.New Toy.libs _ Toy.down 0%nat Toy.custom Toy.start
  = Done Toy2.built Toy.start /\
  exists x',
    @Crawl.processURL _ Toy.down Toy2.built 0%nat url Toy.start = Done tt x' /\
    world x' = [].
Proof.
  cbv zeta.
  assert (H : @Crawl.New Toy.libs _ Toy.down 0%nat Toy.custom Toy.start
              = Done Toy2.built Toy.start) by (vm_compute; reflexivity).
  split; [exact H |].
  destruct (@New_defaults Toy.libs _ Toy.down _ _ _ _ _ 0%nat
              "http://another-invalid-domain-99999.com" Toy.start
              H eq_refl eq_refl eq_refl) as (x' & Hrun & Hx).
  exists x'. split; [exact Hrun |].
  vm_compute in Hx. rewrite Hx. reflexivity.
Defined.
